(** * node2api: request extraction, client-stub emission and schema
    resolution.

    A shallow embedding of the NestJS parser ([src/parsers/nestjs.ts]),
    the axios client writer ([src/writers/axios.ts]) and the OpenAPI
    writer of the repository.  The ts-morph syntax tree and type objects
    are modelled by small inductive types holding exactly the answers the
    code asks of them; JavaScript strings are [string]s of [ascii]
    characters; thrown exceptions are the [Throw] branch of a result
    type. *)

From Stdlib Require Import String Ascii List Bool ZArith Lia.
Import ListNotations.
Open Scope string_scope.
Open Scope list_scope.
Set Warnings "-register-all".

(* ------------------------------------------------------------------ *)
(** ** Results of code that may throw *)

Inductive result (A : Type) : Type :=
| Ok (a : A)
| Throw (msg : string).
Arguments Ok {A} a.
Arguments Throw {A} msg.

(** [Array.prototype.map] with a callback that may throw: the first
    exception propagates. *)
Fixpoint map_result {A B : Type} (f : A -> result B) (l : list A) : result (list B) :=
  match l with
  | [] => Ok []
  | x :: rest =>
      match f x with
      | Throw m => Throw m
      | Ok y =>
          match map_result f rest with
          | Throw m => Throw m
          | Ok ys => Ok (y :: ys)
          end
      end
  end.

(** JavaScript truthiness of an optional string ([undefined] or [""] are
    falsy). *)
Definition js_falsy_str (o : option string) : bool :=
  match o with
  | None => true
  | Some s => String.eqb s ""
  end.

(** [Array.prototype.join] *)
Fixpoint js_join (sep : string) (l : list string) : string :=
  match l with
  | [] => ""
  | [x] => x
  | x :: rest => x ++ sep ++ js_join sep rest
  end.

(* ------------------------------------------------------------------ *)
(** ** The NestJS parser: parameter bindings *)

Module Nestjs.

(** A decorator argument: a string literal (its literal text) or any
    other expression ([new ValidationPipe()], an identifier, ...). *)
Inductive arg :=
| ArgStringLiteral (text : string)
| ArgOther.

Record decorator := mkDecorator {
  deco_name : string;
  deco_args : list arg
}.

Record param := mkParam {
  param_name : string;
  param_decorators : list decorator
}.

(** [Parser.PartialParameterDeclaration] *)
Record partial := mkPartial {
  property : string;
  parameter : param
}.

(** The value of [query] / [data]: a [ParameterDeclaration] (Whole) or
    an array of partials. *)
Inductive binding :=
| Whole (p : param)
| Partials (l : list partial).

(** [p.getDecorator(name)]: the first decorator of that name. *)
Definition getDecorator (name : string) (p : param) : option decorator :=
  find (fun d => String.eqb (deco_name d) name) (param_decorators p).

(** [pair.d.getArguments()[0]?.asKind(SyntaxKind.StringLiteral)?.getLiteralText()] *)
Definition literal_property (d : decorator) : option string :=
  match deco_args d with
  | ArgStringLiteral s :: _ => Some s
  | _ => None
  end.

(** [method.getParameters().map((p) => ({ p, d: p.getDecorator(name) })).filter((p) => p.d)] *)
Fixpoint pairs (name : string) (ps : list param) : list (param * decorator) :=
  match ps with
  | [] => []
  | p :: rest =>
      match getDecorator name p with
      | Some d => (p, d) :: pairs name rest
      | None => pairs name rest
      end
  end.

(** The [for (const pair of pairs)] loop of [getData] / [getQuery],
    followed by [if (partials.length) return partials] (falling off the
    end returns [undefined]). *)
Fixpoint collect (prs : list (param * decorator)) (partials : list partial)
  : option binding :=
  match prs with
  | [] =>
      match partials with
      | [] => None
      | _ => Some (Partials partials)
      end
  | (p, d) :: rest =>
      let prop := literal_property d in
      if js_falsy_str prop then Some (Whole p)
      else
        match prop with
        | Some property => collect rest (partials ++ [mkPartial property p])
        | None => Some (Whole p)
        end
  end.

Definition getData (ps : list param) : option binding :=
  match pairs "Body" ps with
  | [] => None
  | prs => collect prs []
  end.

Definition getQuery (ps : list param) : option binding :=
  match pairs "Query" ps with
  | [] => None
  | prs => collect prs []
  end.

(** The loop of [getParams]: a falsy property throws. *)
Fixpoint collect_params (prs : list (param * decorator)) (partials : list partial)
  : result (option (list partial)) :=
  match prs with
  | [] =>
      match partials with
      | [] => Ok None
      | _ => Ok (Some partials)
      end
  | (p, d) :: rest =>
      let prop := literal_property d in
      if js_falsy_str prop then
        Throw "`@Param()` without property name is not supported"
      else
        match prop with
        | Some property => collect_params rest (partials ++ [mkPartial property p])
        | None => Throw "`@Param()` without property name is not supported"
        end
  end.

Definition getParams (ps : list param) : result (option (list partial)) :=
  match pairs "Param" ps with
  | [] => Ok None
  | prs => collect_params prs []
  end.

End Nestjs.

(* ------------------------------------------------------------------ *)
(** ** The NestJS parser: route paths ([getLiteralPath], [getBaseUrl],
    [getUrl]) *)

Module NestjsPath.

(** The decorator-argument nodes [getLiteralPath] dispatches on;
    [NMethodOrAccessor] is a method, getter or setter of an object
    literal. *)
Inductive node :=
| NStringLiteral (text : string)
| NArrayLiteralExpression (elements : list node)
| NObjectLiteralExpression (properties : list node)
| NPropertyAssignment (name : string) (initializer : node)
| NShorthandPropertyAssignment (name : string)
| NMethodOrAccessor (name : string)
| NOther.

(** [getName()] of an object-literal property ([None] for a property
    without a name, such as a spread assignment). *)
Definition node_name (n : node) : option string :=
  match n with
  | NPropertyAssignment name _ => Some name
  | NShorthandPropertyAssignment name => Some name
  | NMethodOrAccessor name => Some name
  | _ => None
  end.

Definition is_name (name : string) (n : node) : bool :=
  match node_name n with
  | Some m => String.eqb m name
  | None => false
  end.

Definition unknown_argument_type : string := "unknown argument type".

(** Calling a method on [undefined] ([getProperty('path')] finding
    nothing, [asKind(SyntaxKind.StringLiteral)] of another kind). *)
Definition type_error : string :=
  "TypeError: Cannot read properties of undefined".

(** [e.asKind(SyntaxKind.StringLiteral).getLiteralText()] for an array
    element. *)
Definition element_text (e : node) : result string :=
  match e with
  | NStringLiteral s => Ok s
  | _ => Throw type_error
  end.

Fixpoint element_texts (es : list node) : result (list string) :=
  match es with
  | [] => Ok []
  | e :: rest =>
      match element_text e with
      | Throw m => Throw m
      | Ok s =>
          match element_texts rest with
          | Throw m => Throw m
          | Ok ss => Ok (s :: ss)
          end
      end
  end.

(** [getLiteralPath(node, allowObject)].  In the object-literal case the
    inner loop is [getProperty('path')] (first property named [path])
    followed by the recursive call on it, with [allowObject] unset;
    no such property hands [undefined] to the recursive call, whose
    [node.getKind()] throws a [TypeError]. *)
Fixpoint getLiteralPath (n : node) (allowObject : bool) : result string :=
  match n with
  | NStringLiteral s => Ok s
  | NArrayLiteralExpression es =>
      match element_texts es with
      | Ok ss => Ok (js_join "/" ss)
      | Throw m => Throw m
      end
  | NObjectLiteralExpression props =>
      if negb allowObject then Throw unknown_argument_type
      else
        (fix go (ps : list node) : result string :=
           match ps with
           | [] => Throw type_error
           | p :: rest => if is_name "path" p then getLiteralPath p false else go rest
           end) props
  | NPropertyAssignment _ init => getLiteralPath init false
  | NShorthandPropertyAssignment _ => Throw unknown_argument_type
  | NMethodOrAccessor _ => Throw unknown_argument_type
  | NOther => Throw unknown_argument_type
  end.

(** [getBaseUrl(deco)] (controller level) and [getUrl(deco)] (method
    level), given the decorator's arguments. *)
Definition getBaseUrl (args : list node) : result string :=
  match args with
  | [] => Ok ""
  | a :: _ => getLiteralPath a true
  end.

Definition getUrl (args : list node) : result string :=
  match args with
  | [] => Ok ""
  | a :: _ => getLiteralPath a false
  end.

End NestjsPath.

(* ------------------------------------------------------------------ *)
(** ** The axios client writer *)

Module Axios.
Import Nestjs.

Definition slash : ascii := "/".
Definition colon : ascii := ":".

(** The line terminators of JavaScript regular expressions that an
    [ascii] character can be ([.] matches none of them). *)
Definition is_line_terminator (c : ascii) : bool :=
  Ascii.eqb c (ascii_of_nat 10) || Ascii.eqb c (ascii_of_nat 13).

(** [.replace(/\/{2,}/g, '/')]: every run of two or more slashes becomes
    one slash; [prev] records that the previous character was a slash. *)
Fixpoint collapse_slashes (prev : bool) (s : string) : string :=
  match s with
  | EmptyString => EmptyString
  | String c rest =>
      if Ascii.eqb c slash then
        if prev then collapse_slashes true rest
        else String c (collapse_slashes true rest)
      else String c (collapse_slashes false rest)
  end.

(** [.replace(/(.+)\/$/, '$1')]: the regex matches iff the string ends in
    a slash preceded by at least one character that is not a line
    terminator; the replacement then drops that final slash. *)
Definition trim_trailing_slash (s : string) : string :=
  let n := String.length s in
  if Nat.ltb n 2 then s
  else
    match String.get (n - 1) s, String.get (n - 2) s with
    | Some c, Some c' =>
        if Ascii.eqb c slash && negb (is_line_terminator c')
        then substring 0 (n - 1) s
        else s
    | _, _ => s
    end.

(** [joinPaths(...args)] *)
Definition joinPaths (args : list string) : string :=
  trim_trailing_slash
    (collapse_slashes false (js_join "/" ([""] ++ args ++ [""]))).

(** The request record the writer consumes ([Parser.Request]). *)
Record request := mkRequest {
  method : string;
  url : string;
  params : option (list partial);
  query : option binding;
  data : option binding
}.

(** The TypeScript factory nodes the writer builds. *)
Inductive template_literal :=
| TemplateMiddle (text : string)
| TemplateTail (text : string).

Inductive expr :=
| StringLiteral (text : string)
| Identifier (name : string)
| ObjectLiteralExpression (props : list obj_element)
| TemplateExpression (head : string) (spans : list (expr * template_literal))
with obj_element :=
| PropertyAssignment (name : string) (init : expr)
| SpreadAssignment (e : expr).

(** [Map.prototype.set] on a string map: an existing key keeps its
    position and takes the new value, a new key is appended. *)
Fixpoint map_set (k v : string) (m : list (string * string)) : list (string * string) :=
  match m with
  | [] => [(k, v)]
  | (k', v') :: rest =>
      if String.eqb k k' then (k, v) :: rest else (k', v') :: map_set k v rest
  end.

(** [createMergedObjectExpression(parameters)] *)
Definition createMergedObjectExpression (b : binding) : expr :=
  match b with
  | Whole p => Identifier (param_name p)
  | Partials l =>
      let m := fold_left
                 (fun m pp => map_set (property pp) (param_name (parameter pp)) m)
                 l [] in
      ObjectLiteralExpression
        (map (fun '(k, v) => PropertyAssignment k (Identifier v)) m)
  end.

(** [url.split(/(?=:)/g)]: split before every colon, except that a
    zero-width match at the start of the current piece is skipped. *)
Fixpoint split_before_colon (cur : string) (s : string) : list string :=
  match s with
  | EmptyString => [cur]
  | String c rest =>
      if Ascii.eqb c colon && negb (String.eqb cur "")
      then cur :: split_before_colon (String c EmptyString) rest
      else split_before_colon (cur ++ String c EmptyString) rest
  end.

(** The greedy [(.+)]: the longest prefix free of line terminators. *)
Fixpoint take_line (s : string) : string :=
  match s with
  | EmptyString => EmptyString
  | String c rest =>
      if is_line_terminator c then EmptyString else String c (take_line rest)
  end.

(** [const [exp, literal] = span.split(/\/(.+)/)]: the first match is at
    the first slash followed by a character that is not a line
    terminator; [exp] is the text before it and [literal] the captured
    group, or [undefined] when nothing matches. *)
Fixpoint split_slash (s : string) : string * option string :=
  match s with
  | EmptyString => (EmptyString, None)
  | String c rest =>
      let later := let (e, l) := split_slash rest in (String c e, l) in
      if Ascii.eqb c slash then
        match rest with
        | String c' _ =>
            if is_line_terminator c' then later else (EmptyString, Some (take_line rest))
        | EmptyString => later
        end
      else later
  end.

(** [exp.slice(1)] *)
Definition slice1 (s : string) : string :=
  match s with
  | EmptyString => EmptyString
  | String _ rest => rest
  end.

(** String concatenation with a possibly [undefined] operand. *)
Definition js_str (o : option string) : string :=
  match o with
  | Some s => s
  | None => "undefined"
  end.

Fixpoint mapi_from {A B : Type} (i : nat) (f : nat -> A -> B) (l : list A) : list B :=
  match l with
  | [] => []
  | x :: rest => f i x :: mapi_from (S i) f rest
  end.

(** One element of [spans.map((span, i) => ...)]. *)
Definition template_span (n : nat) (i : nat) (span : string) : expr * template_literal :=
  let (exp, literal) := split_slash span in
  (Identifier (slice1 exp),
   if Nat.ltb i (n - 1)
   then TemplateMiddle ("/" ++ js_str literal)
   else TemplateTail (if js_falsy_str literal then "" else "/" ++ js_str literal)).

(** [createUrlStringExpression(request, url)] *)
Definition createUrlStringExpression (r : request) (u : string) : expr :=
  match params r with
  | None => StringLiteral u
  | Some _ =>
      match split_before_colon "" u with
      | [] => TemplateExpression "" []
      | head :: spans =>
          TemplateExpression head (mapi_from 0 (template_span (length spans)) spans)
      end
  end.

(** [createRequestOptions(request, url, overwrite)]: the properties of
    the emitted options object literal. *)
Definition createRequestOptions (r : request) (u : string) (overwrite : option string)
  : list obj_element :=
  [PropertyAssignment "method" (StringLiteral (method r));
   PropertyAssignment "url" (createUrlStringExpression r u)]
  ++ match query r with
     | Some q => [PropertyAssignment "params" (createMergedObjectExpression q)]
     | None => []
     end
  ++ match data r with
     | Some d => [PropertyAssignment "data" (createMergedObjectExpression d)]
     | None => []
     end
  ++ match overwrite with
     | Some o => if js_falsy_str overwrite then [] else [SpreadAssignment (Identifier o)]
     | None => []
     end.

End Axios.

(* ------------------------------------------------------------------ *)
(** ** The OpenAPI writer: schema resolution *)

Module OpenAPI.

(** JavaScript values as they end up in the document; [JUndefined] is a
    property holding [undefined]. *)
Inductive json :=
| JUndefined
| JNull
| JBool (b : bool)
| JNumber (z : Z)
| JString (s : string)
| JArray (l : list json)
| JObject (fields : list (string * json)).

(** Assigning [obj[k] = v]: an existing key keeps its position. *)
Fixpoint obj_set (k : string) (v : json) (fs : list (string * json)) : list (string * json) :=
  match fs with
  | [] => [(k, v)]
  | (k', v') :: rest =>
      if String.eqb k k' then (k, v) :: rest else (k', v') :: obj_set k v rest
  end.

Fixpoint obj_get (k : string) (fs : list (string * json)) : option json :=
  match fs with
  | [] => None
  | (k', v) :: rest => if String.eqb k k' then Some v else obj_get k rest
  end.

(** [obj[k] = v] with an object [v]: the key [__proto__] replaces the
    prototype and adds no own property. *)
Definition js_assign (k : string) (v : json) (fs : list (string * json))
  : list (string * json) :=
  if String.eqb k "__proto__" then fs else obj_set k v fs.

Definition js_opt_string (o : option string) : json :=
  match o with
  | Some s => JString s
  | None => JUndefined
  end.

(** [JSON.stringify]: properties holding [undefined] are omitted,
    [undefined] array elements become [null]. *)
Fixpoint json_clean (j : json) : json :=
  match j with
  | JArray l => JArray (map (fun e => match e with
                                      | JUndefined => JNull
                                      | _ => json_clean e
                                      end) l)
  | JObject fs =>
      JObject ((fix go (fs : list (string * json)) : list (string * json) :=
                  match fs with
                  | [] => []
                  | (k, JUndefined) :: rest => go rest
                  | (k, v) :: rest => (k, json_clean v) :: go rest
                  end) fs)
  | _ => j
  end.

(** Looking up a path of keys in a document. *)
Fixpoint json_get_path (ks : list string) (j : json) : option json :=
  match ks with
  | [] => Some j
  | k :: rest =>
      match j with
      | JObject fs =>
          match obj_get k fs with
          | Some v => json_get_path rest v
          | None => None
          end
      | _ => None
      end
  end.

(** [resolveRefType(typeName)] *)
Definition resolveRefType (typeName : string) : json :=
  if String.eqb typeName "Date"
  then JObject [("type", JString "string"); ("format", JString "date-time")]
  else JObject [("$ref", JString ("#/components/schemas/" ++ typeName))].

(** The name of a type reference: an identifier, or a qualified name
    such as [Prisma.SortOrder]. *)
Inductive entity_name :=
| Identifier (text : string)
| QualifiedName (text : string).

(** Type nodes as [resolveNodeSchema] dispatches on their kind.  A
    literal annotation (['a'], [1], [true], [null]) is a [LiteralType]
    node: the labels [StringLiteral], [NumericLiteral], [TrueKeyword] and
    [FalseKeyword] of the switch are kinds of the literal inside such a
    node, never of a type node, so a literal annotation reaches the
    warning. *)
Inductive type_node :=
| NumberKeyword | BigIntKeyword | StringKeyword | BooleanKeyword
| ArrayType (element : type_node)
| TemplateLiteralType
| UnionType (members : list type_node)
| TypeReference (name : entity_name) (args : list type_node)
| LiteralType
| OtherTypeNode.

(** [resolveNodeSchema(node)]; [scope] is the list of type-parameter
    names [node.getSymbolsInScope(SymbolFlags.TypeParameter)] returns.
    [typeRef.getTypeName().asKind(SyntaxKind.Identifier).getText()]
    throws on a qualified name; a reference with type arguments falls
    through to the warning and [{}]. *)
Fixpoint resolveNodeSchema (scope : list string) (n : type_node) : result json :=
  match n with
  | NumberKeyword | BigIntKeyword => Ok (JObject [("type", JString "number")])
  | StringKeyword => Ok (JObject [("type", JString "string")])
  | BooleanKeyword => Ok (JObject [("type", JString "boolean")])
  | ArrayType e =>
      match resolveNodeSchema scope e with
      | Throw m => Throw m
      | Ok items => Ok (JObject [("type", JString "array"); ("items", items)])
      end
  | TemplateLiteralType => Ok (JObject [("type", JString "string")])
  | UnionType ms =>
      match map_result (resolveNodeSchema scope) ms with
      | Throw m => Throw m
      | Ok l => Ok (JObject [("anyOf", JArray l)])
      end
  | TypeReference (QualifiedName _) _ => Throw NestjsPath.type_error
  | TypeReference (Identifier name) [] =>
      Ok (if existsb (String.eqb name) scope then JObject [] else resolveRefType name)
  | TypeReference (Identifier _) (_ :: _) => Ok (JObject [])
  | LiteralType | OtherTypeNode => Ok (JObject [])
  end.

(** [this.resolveNodeSchema(x.getTypeNode())]: without a type annotation
    the node is [undefined] and [node.getKind()] throws. *)
Definition node_schema (scope : list string) (tn : option type_node) : result json :=
  match tn with
  | Some n => resolveNodeSchema scope n
  | None => Throw NestjsPath.type_error
  end.

(** A property signature or declaration: its name, its type annotation
    ([getTypeNode()], [None] without one) and its JSDoc text. *)
Record property_decl := mkProperty {
  prop_name : string;
  prop_type : option type_node;
  prop_doc : option string
}.

(** A class declaration: the text of its [extends] clause, of its
    [implements] clauses, its JSDoc text and its own properties. *)
Record class_decl := mkClass {
  cls_name : string;
  cls_doc : option string;
  cls_extends : option string;
  cls_implements : list string;
  cls_props : list property_decl;
  cls_scope : list string
}.

Record interface_decl := mkInterface {
  intf_name : string;
  intf_doc : option string;
  intf_extends : list string;
  intf_props : list property_decl;
  intf_scope : list string
}.

(** [{ ...schema, description }] *)
Definition with_description (schema : json) (d : json) : json :=
  match schema with
  | JObject fs => JObject (obj_set "description" d fs)
  | _ => JObject [("description", d)]
  end.

(** The [reduce] of [resolveObjectSchema] from the accumulator [acc]:
    [acc[prop.getName()] = { ...schema, description }]. *)
Fixpoint object_properties (scope : list string) (acc : list (string * json))
  (props : list property_decl) : result (list (string * json)) :=
  match props with
  | [] => Ok acc
  | p :: rest =>
      match node_schema scope (prop_type p) with
      | Throw m => Throw m
      | Ok schema =>
          object_properties scope
            (js_assign (prop_name p) (with_description schema (js_opt_string (prop_doc p))) acc)
            rest
      end
  end.

(** [resolveObjectSchema(type)] on the declaration's doc text, its own
    properties and its type-parameter scope. *)
Definition resolveObjectSchema (doc : option string) (props : list property_decl)
  (scope : list string) : result json :=
  match object_properties scope [] props with
  | Throw m => Throw m
  | Ok fs =>
      Ok (JObject [("type", JString "object");
                   ("description", js_opt_string doc);
                   ("properties", JObject fs)])
  end.

Definition supertype_ref (t : string) : json :=
  JObject [("$ref", JString ("#/components/schemas/" ++ t))].

(** [const supertypes = [...type.getImplements()]; if (ex) supertypes.unshift(ex)] *)
Definition class_supertypes (c : class_decl) : list string :=
  match cls_extends c with
  | Some ex => ex :: cls_implements c
  | None => cls_implements c
  end.

(** [resolveClassComponent(type)] *)
Definition resolveClassComponent (c : class_decl) : result json :=
  let supertypes := class_supertypes c in
  match resolveObjectSchema (cls_doc c) (cls_props c) (cls_scope c) with
  | Throw m => Throw m
  | Ok self =>
      Ok (match supertypes with
          | [] => self
          | _ => JObject [("allOf", JArray (map supertype_ref supertypes ++ [self]))]
          end)
  end.

(** [resolveInterfaceComponent(type)] *)
Definition resolveInterfaceComponent (i : interface_decl) : result json :=
  let supertypes := intf_extends i in
  match resolveObjectSchema (intf_doc i) (intf_props i) (intf_scope i) with
  | Throw m => Throw m
  | Ok self =>
      Ok (match supertypes with
          | [] => self
          | _ => JObject [("allOf", JArray (map supertype_ref supertypes ++ [self]))]
          end)
  end.

(** The value of an enum member ([member.getValue()]). *)
Inductive enum_value :=
| EnumString (s : string)
| EnumNumber (z : Z).

Definition enum_value_json (v : enum_value) : json :=
  match v with
  | EnumString s => JString s
  | EnumNumber z => JNumber z
  end.

Record enum_decl := mkEnum {
  enum_name : string;
  enum_doc : option string;
  enum_members : list enum_value
}.

(** [typeof values[0] === 'string' ? 'string' : 'number'] *)
Definition enum_type (values : list enum_value) : string :=
  match values with
  | EnumString _ :: _ => "string"
  | _ => "number"
  end.

(** [resolveEnumComponent(type)] *)
Definition resolveEnumComponent (e : enum_decl) : json :=
  let values := enum_members e in
  JObject [("type", JString (enum_type values));
           ("description", js_opt_string (enum_doc e));
           ("enum", JArray (map enum_value_json values))].

(** A checker type, given by the answers of the ts-morph predicates
    [resolveTypeSchema] asks in order: [isUndefined], [isNull],
    [isString], [isStringLiteral], [isNumber], [isNumberLiteral],
    [isBoolean], [isBooleanLiteral], [isArray] with
    [getArrayElementType], [isClassOrInterface], [isEnum], [getText],
    [isUnion] with [getUnionTypes], [getTargetType] (the generic
    warning only), [isIntersection] with [getIntersectionTypes] and
    [isObject]. *)
Inductive ty :=
| MkTy (is_undefined is_null is_string is_string_literal is_number
        is_number_literal is_boolean is_boolean_literal : bool)
       (array_element : option ty)
       (is_class_or_interface is_enum : bool)
       (text : string)
       (union_types : option (list ty))
       (intersection_types : option (list ty))
       (is_object : bool).

(** [resolveTypeSchema(type)]; [undefined] is [JUndefined]. *)
Fixpoint resolveTypeSchema (t : ty) : json :=
  match t with
  | MkTy u n s sl num nl b bl arr ci en text un inter obj =>
      if u || n then JUndefined
      else if s || sl then JObject [("type", JString "string")]
      else if num || nl then JObject [("type", JString "number")]
      else if b || bl then JObject [("type", JString "boolean")]
      else match arr with
      | Some e => JObject [("type", JString "array"); ("items", resolveTypeSchema e)]
      | None =>
      if ci || en then resolveRefType text
      else match un with
      | Some ms => JObject [("anyOf", JArray (map resolveTypeSchema ms))]
      | None =>
      match inter with
      | Some ms => JObject [("allOf", JArray (map resolveTypeSchema ms))]
      | None => if obj then JObject [("type", JString "object")] else JObject []
      end end end
  end.

(** [resolveResponses(request)] on the return type and the [@returns]
    doc text. *)
Definition resolveResponses (res : ty) (returns_doc : option string) : json :=
  let schema := resolveTypeSchema res in
  JObject
    [("200",
       JObject [("description", js_opt_string returns_doc);
                ("content",
                  JObject [("application/json", JObject [("schema", schema)])])])].

(** [\w] *)
Definition is_word_char (c : ascii) : bool :=
  let n := nat_of_ascii c in
  (Nat.leb 48 n && Nat.leb n 57) || (Nat.leb 65 n && Nat.leb n 90)
  || (Nat.leb 97 n && Nat.leb n 122) || Nat.eqb n 95.

(** [.replace(/\:(\w+)/g, (_, cap) => `{${cap}}`)]: [inside] records that
    a placeholder is open, whose closing brace is due before the first
    character that is not a word character. *)
Fixpoint braces_of_placeholders (inside : bool) (s : string) : string :=
  match s with
  | EmptyString => if inside then "}" else EmptyString
  | String c rest =>
      if inside && is_word_char c then String c (braces_of_placeholders true rest)
      else
        let close := if inside then "}" else EmptyString in
        let opens := Ascii.eqb c Axios.colon &&
                     match rest with
                     | String c' _ => is_word_char c'
                     | EmptyString => false
                     end in
        if opens then close ++ "{" ++ braces_of_placeholders true rest
        else close ++ String c (braces_of_placeholders false rest)
  end.

(** [resolveUrl(url, baseUrl)]: the same joining as the client writer's
    [joinPaths], then every [:name] becomes [{name}]. *)
Definition resolveUrl (url baseUrl : string) : string :=
  braces_of_placeholders false (Axios.joinPaths [baseUrl; url]).

End OpenAPI.

(* ------------------------------------------------------------------ *)
(** ** The NestJS parser: requests and controllers ([getVerb],
    [getRequests], [getControllers]) *)

Module NestjsRequests.
Import Nestjs.

Definition MethodDecoratorNames : list string :=
  ["Get"; "Post"; "Put"; "Patch"; "Delete"].

(** A method or class decorator as [getVerb], [getUrl] and [getBaseUrl]
    see it: its name and its argument nodes. *)
Record route_decorator := mkRouteDecorator {
  rd_name : string;
  rd_args : list NestjsPath.node
}.

(** A method of a controller class: its decorators and its parameters. *)
Record method_decl := mkMethod {
  m_decorators : list route_decorator;
  m_params : list param
}.

(** [String.prototype.toLowerCase] on ASCII letters. *)
Definition lower_ascii (c : ascii) : ascii :=
  let n := nat_of_ascii c in
  if Nat.leb 65 n && Nat.leb n 90 then ascii_of_nat (n + 32) else c.

Fixpoint to_lower (s : string) : string :=
  match s with
  | EmptyString => EmptyString
  | String c rest => String (lower_ascii c) (to_lower rest)
  end.

(** [getVerb(method)]: [method.getDecorator(pred)] returns the first
    decorator whose name is one of [MethodDecoratorNames]. *)
Definition getVerb (m : method_decl) : option route_decorator :=
  find (fun d => existsb (String.eqb (rd_name d)) MethodDecoratorNames)
    (m_decorators m).

(** [getRequests(type)], iterated to the end.  A method without a verb
    is skipped; for the others [getUrl(verb)] runs first, then
    [getParams] (both may throw), then [getQuery] and [getData].  The
    [res] and [func] fields of a request are passed through from the
    method and are not modelled here. *)
Fixpoint getRequests (ms : list method_decl) : result (list Axios.request) :=
  match ms with
  | [] => Ok []
  | m :: rest =>
      match getVerb m with
      | None => getRequests rest
      | Some verb =>
          match NestjsPath.getUrl (rd_args verb) with
          | Throw e => Throw e
          | Ok u =>
              match getParams (m_params m) with
              | Throw e => Throw e
              | Ok ps =>
                  match getRequests rest with
                  | Throw e => Throw e
                  | Ok rs =>
                      Ok (Axios.mkRequest (to_lower (rd_name verb)) u ps
                            (getQuery (m_params m)) (getData (m_params m)) :: rs)
                  end
              end
          end
      end
  end.

(** A class of a controller source file: its decorators, the comment
    texts of its JSDoc blocks and its methods. *)
Record class_info := mkClassInfo {
  ci_decorators : list route_decorator;
  ci_docs : list (option string);
  ci_methods : list method_decl
}.

(** [Parser.Controller]; [requests] is a lazy generator, kept as the
    outcome of iterating it. *)
Record controller := mkController {
  ctl_name : string;
  ctl_baseUrl : string;
  ctl_docs : list (option string);
  ctl_requests : result (list Axios.request)
}.

Definition dot : ascii := ".".

(** [s.split('.', 1)[0]]: the text before the first dot. *)
Fixpoint before_dot (s : string) : string :=
  match s with
  | EmptyString => EmptyString
  | String c rest => if Ascii.eqb c dot then EmptyString else String c (before_dot rest)
  end.

(** The inner loop of [getControllers] over the classes of one file,
    whose [getBaseNameWithoutExtension()] gave [base]: a class without a
    [Controller] decorator is skipped, [getBaseUrl] runs when a
    controller is reached. *)
Fixpoint controllers_of_file (base : string) (cls : list class_info)
  : result (list controller) :=
  match cls with
  | [] => Ok []
  | c :: rest =>
      match find (fun d => String.eqb (rd_name d) "Controller") (ci_decorators c) with
      | None => controllers_of_file base rest
      | Some deco =>
          match NestjsPath.getBaseUrl (rd_args deco) with
          | Throw e => Throw e
          | Ok b =>
              match controllers_of_file base rest with
              | Throw e => Throw e
              | Ok cs =>
                  Ok (mkController (before_dot base) b (ci_docs c)
                        (getRequests (ci_methods c)) :: cs)
              end
          end
      end
  end.

(** [getControllers()], iterated to the end, over the controller source
    files given by their base name without extension and their classes. *)
Fixpoint getControllers (files : list (string * list class_info))
  : result (list controller) :=
  match files with
  | [] => Ok []
  | (base, cls) :: rest =>
      match controllers_of_file base cls with
      | Throw e => Throw e
      | Ok cs =>
          match getControllers rest with
          | Throw e => Throw e
          | Ok cs' => Ok (cs ++ cs')
          end
      end
  end.

End NestjsRequests.

(* ------------------------------------------------------------------ *)
(** ** The OpenAPI writer: components, parameters, bodies and paths *)

Module OpenAPIWriter.
Import Nestjs OpenAPI.

(** [Parser.TypeDeclaration] as the writer handles it.  Beside the
    declaration, an interface carries for each [extends] clause, and a
    class for its [extends] clause if it has one, the answer of
    [getExpressionIfKind(SyntaxKind.Identifier)?.getText()]. *)
Inductive type_decl :=
| TEnum (e : enum_decl)
| TInterface (i : interface_decl) (ext_idents : list (option string))
| TClass (c : class_decl) (ext_ident : option (option string))
| TTypeAlias (name : string).

Definition decl_name (d : type_decl) : string :=
  match d with
  | TEnum e => enum_name e
  | TInterface i _ => intf_name i
  | TClass c _ => cls_name c
  | TTypeAlias n => n
  end.

(** The [schema] of [addComponent]'s switch ([undefined] for a type
    alias); resolving an interface or a class may throw. *)
Definition component_schema (d : type_decl) : result (option json) :=
  match d with
  | TEnum e => Ok (Some (resolveEnumComponent e))
  | TInterface i _ =>
      match resolveInterfaceComponent i with
      | Throw m => Throw m
      | Ok s => Ok (Some s)
      end
  | TClass c _ =>
      match resolveClassComponent c with
      | Throw m => Throw m
      | Ok s => Ok (Some s)
      end
  | TTypeAlias _ => Ok None
  end.

(** [Map.prototype.set] and [Map.prototype.get] on [this.types]. *)
Fixpoint reg_set (k : string) (v : type_decl) (m : list (string * type_decl))
  : list (string * type_decl) :=
  match m with
  | [] => [(k, v)]
  | (k', v') :: rest =>
      if String.eqb k k' then (k, v) :: rest else (k', v') :: reg_set k v rest
  end.

Fixpoint reg_get (k : string) (m : list (string * type_decl)) : option type_decl :=
  match m with
  | [] => None
  | (k', v) :: rest => if String.eqb k k' then Some v else reg_get k rest
  end.

(** The writer's state: [doc.components.schemas] and [this.types]. *)
Record writer := mkWriter {
  schemas : list (string * json);
  types : list (string * type_decl)
}.

(** [addComponent(type)].  The [console.warn] on a duplicate name is
    console output only and is not modelled. *)
Definition addComponent (w : writer) (d : type_decl) : result writer :=
  match component_schema d with
  | Throw m => Throw m
  | Ok (Some schema) =>
      Ok (mkWriter (js_assign (decl_name d) schema (schemas w))
                   (reg_set (decl_name d) d (types w)))
  | Ok None => Ok w
  end.

(** The first loop of [write]. *)
Fixpoint addComponents (ds : list type_decl) (w : writer) : result writer :=
  match ds with
  | [] => Ok w
  | d :: rest =>
      match addComponent w d with
      | Throw m => Throw m
      | Ok w' => addComponents rest w'
      end
  end.

Definition type_error : string := NestjsPath.type_error.

(** The recursion below is bounded by a fuel argument; running out of it
    stands for the unbounded recursion of a cyclic hierarchy, which ends
    in this error. *)
Definition range_error : string := "RangeError: Maximum call stack size exceeded".

Definition is_class_or_interface (d : type_decl) : bool :=
  match d with
  | TClass _ _ | TInterface _ _ => true
  | _ => false
  end.

(** [type.getExtends()] as the loop of [resolveProtoChain] sees it: no
    clause for a class without [extends], one for a class with it, the
    array for an interface. *)
Definition heritage_idents (d : type_decl) : list (option string) :=
  match d with
  | TClass _ (Some e) => [e]
  | TClass _ None => []
  | TInterface _ es => es
  | _ => []
  end.

(** The generators [resolveProtoChain] and [resolvePropertiesRecursively]
    as the list of what they yield and whether they run to their end;
    the recursion is bounded by a fuel argument, and running out of it
    (the unbounded recursion of a cyclic hierarchy) stops the generator
    after what it has yielded so far. *)

(** The loop of [resolveProtoChain] over the [extends] clauses, [rec]
    being the recursive call: for each clause whose expression is an
    identifier naming a registered class or interface, that declaration
    followed by its own chain. *)
Fixpoint chain_loop (rec : type_decl -> list type_decl * bool)
  (tys : list (string * type_decl)) (es : list (option string))
  : list type_decl * bool :=
  match es with
  | [] => ([], true)
  | None :: rest => chain_loop rec tys rest
  | Some n :: rest =>
      if String.eqb n "" then chain_loop rec tys rest
      else
        match reg_get n tys with
        | Some s =>
            if is_class_or_interface s then
              let (c, c_done) := rec s in
              if c_done then
                let (r, r_done) := chain_loop rec tys rest in (s :: c ++ r, r_done)
              else (s :: c, false)
            else chain_loop rec tys rest
        | None => chain_loop rec tys rest
        end
  end.

(** [resolveProtoChain(type)] *)
Fixpoint resolveProtoChain (fuel : nat) (tys : list (string * type_decl))
  (d : type_decl) : list type_decl * bool :=
  match fuel with
  | O => ([], false)
  | S f => chain_loop (resolveProtoChain f tys) tys (heritage_idents d)
  end.

(** [it.getProperties()], each with the type parameters in scope at its
    declaration. *)
Definition own_properties (d : type_decl) : list (property_decl * list string) :=
  match d with
  | TClass c _ => map (fun p => (p, cls_scope c)) (cls_props c)
  | TInterface i _ => map (fun p => (p, intf_scope i)) (intf_props i)
  | _ => []
  end.

(** The loop [for (const superType of ...) yield* ...] of
    [resolvePropertiesRecursively], [rec] being the recursive call. *)
Fixpoint inherited_loop (rec : type_decl -> list (property_decl * list string) * bool)
  (l : list type_decl) : list (property_decl * list string) * bool :=
  match l with
  | [] => ([], true)
  | s :: rest =>
      let (a, a_done) := rec s in
      if a_done then
        let (b, b_done) := inherited_loop rec rest in (a ++ b, b_done)
      else (a, false)
  end.

(** [resolvePropertiesRecursively(type)]: for a class or an interface,
    the own properties, then those of every declaration of the proto
    chain, each resolved recursively again; nothing for another kind. *)
Fixpoint yielded_properties (fuel : nat) (tys : list (string * type_decl))
  (d : type_decl) : list (property_decl * list string) * bool :=
  match fuel with
  | O => ([], false)
  | S f =>
      if is_class_or_interface d then
        let (chain, chain_done) := resolveProtoChain f tys d in
        let (inherited, inherited_done) := inherited_loop (yielded_properties f tys) chain in
        (own_properties d ++ inherited, inherited_done && chain_done)
      else ([], true)
  end.

(** [resolvePropertiesRecursively(type)] iterated to its end. *)
Definition resolvePropertiesRecursively (fuel : nat) (tys : list (string * type_decl))
  (d : type_decl) : option (list (property_decl * list string)) :=
  let (ps, ps_done) := yielded_properties fuel tys d in
  if ps_done then Some ps else None.

(** JSDoc blocks: the comment text and the tags. *)
Inductive jsdoc_tag :=
| ParamTag (name : string) (comment : option string)
| ReturnTag (comment : option string)
| OtherTag.

Record jsdoc := mkJsDoc {
  jd_comment : option string;
  jd_tags : list jsdoc_tag
}.

(** [docs[0]?.getCommentText()] *)
Definition first_comment (docs : list jsdoc) : option string :=
  match docs with
  | [] => None
  | d :: _ => jd_comment d
  end.

(** [docs[0]?.getTags().find((tag) => tag instanceof JSDocParameterTag &&
    tag.getName() === name)?.getCommentText()] *)
Definition param_doc (docs : list jsdoc) (name : string) : option string :=
  match docs with
  | [] => None
  | d :: _ =>
      match find (fun t => match t with
                           | ParamTag n _ => String.eqb n name
                           | _ => false
                           end) (jd_tags d) with
      | Some (ParamTag _ c) => c
      | _ => None
      end
  end.

(** [docs[0]?.getTags().find((tag) => tag instanceof JSDocReturnTag)?.getCommentText()] *)
Definition returns_doc (docs : list jsdoc) : option string :=
  match docs with
  | [] => None
  | d :: _ =>
      match find (fun t => match t with ReturnTag _ => true | _ => false end) (jd_tags d) with
      | Some (ReturnTag c) => c
      | _ => None
      end
  end.

(** What the writer asks of a parameter declaration: [getTypeNode()]
    ([undefined] without a type annotation), [isOptional()] and the type
    parameters in scope at its type node. *)
Record param_info := mkParamInfo {
  pi_type : option type_node;
  pi_optional : bool;
  pi_scope : list string
}.

(** [Parser.Request] for the OpenAPI writer: the request fields, the
    return type and the JSDoc blocks of [func]. *)
Record oa_request := mkOARequest {
  oa_req : Axios.request;
  oa_res : ty;
  oa_docs : list jsdoc
}.

(** [Parser.Controller]: name, base path, the comment texts of its JSDoc
    blocks and its requests. *)
Record oa_controller := mkOAController {
  oc_name : string;
  oc_baseUrl : string;
  oc_docs : list (option string);
  oc_requests : list oa_request
}.

Section Writer.

(** The ts-morph answers for parameter declarations, and
    [prop.hasQuestionToken()] for properties. *)
Variable info : param -> param_info.
Variable prop_optional : property_decl -> bool.
Variable fuel : nat.

(** One [OpenAPIV3.ParameterObject]. *)
Definition parameter_object (name inn : string) (required : bool)
  (description : option string) (schema : json) : json :=
  JObject [("name", JString name); ("in", JString inn); ("required", JBool required);
           ("description", js_opt_string description); ("schema", schema)].

(** The array branch of [createParamters]. *)
Fixpoint partial_parameters (type_ : string) (docs : list jsdoc) (l : list partial)
  : result (list json) :=
  match l with
  | [] => Ok []
  | pp :: rest =>
      let pi := info (parameter pp) in
      match node_schema (pi_scope pi) (pi_type pi) with
      | Throw e => Throw e
      | Ok s =>
          match partial_parameters type_ docs rest with
          | Throw e => Throw e
          | Ok r =>
              Ok (parameter_object (property pp) type_ (negb (pi_optional pi))
                    (param_doc docs (param_name (parameter pp))) s :: r)
          end
      end
  end.

(** The object yielded for a property of a Whole parameter's type. *)
Definition property_parameter (type_ : string) (ps : property_decl * list string)
  : result json :=
  let (p, scope) := ps in
  match node_schema scope (prop_type p) with
  | Throw m => Throw m
  | Ok s => Ok (parameter_object (prop_name p) type_ (negb (prop_optional p)) (prop_doc p) s)
  end.

(** [createParamters(type, request, parameters)], iterated to the end.
    For a Whole parameter the type name is the identifier of a type
    reference annotation (the optional chaining gives nothing for a
    qualified name or another annotation); a name missing from
    [this.types] hands [undefined] to [resolvePropertiesRecursively],
    whose [type.getKind()] throws.  The spread consumes the generator
    lazily: each property yielded is resolved before the next one, so a
    property's TypeError comes before the RangeError of a generator that
    does not end. *)
Definition createParamters (tys : list (string * type_decl)) (type_ : string)
  (docs : list jsdoc) (b : binding) : result (list json) :=
  match b with
  | Partials l => partial_parameters type_ docs l
  | Whole p =>
      match pi_type (info p) with
      | None => Throw type_error
      | Some (TypeReference (Identifier n) _) =>
          if String.eqb n "" then Ok []
          else
            match reg_get n tys with
            | None => Throw type_error
            | Some d =>
                let (props, props_done) := yielded_properties fuel tys d in
                match map_result (property_parameter type_) props with
                | Throw e => Throw e
                | Ok objs => if props_done then Ok objs else Throw range_error
                end
            end
      | Some _ => Ok []
      end
  end.

(** [resolveParameters(request)]: the path parameters, then the query
    ones; [undefined] when there are none. *)
Definition resolveParameters (tys : list (string * type_decl)) (r : oa_request)
  : result json :=
  let req := oa_req r in
  match match Axios.params req with
        | Some l => createParamters tys "path" (oa_docs r) (Partials l)
        | None => Ok []
        end with
  | Throw e => Throw e
  | Ok ps =>
      match match Axios.query req with
            | Some b => createParamters tys "query" (oa_docs r) b
            | None => Ok []
            end with
      | Throw e => Throw e
      | Ok qs =>
          match ps ++ qs with
          | [] => Ok JUndefined
          | all => Ok (JArray all)
          end
      end
  end.

(** [resolveBody(request)]: only a Whole body gives a request body. *)
Definition resolveBody (r : oa_request) : result json :=
  match Axios.data (oa_req r) with
  | None => Ok JUndefined
  | Some (Partials _) => Ok JUndefined
  | Some (Whole p) =>
      let pi := info p in
      match node_schema (pi_scope pi) (pi_type pi) with
      | Throw e => Throw e
      | Ok s =>
          Ok (JObject
                [("description", js_opt_string (param_doc (oa_docs r) (param_name p)));
                 ("content", JObject [("application/json", JObject [("schema", s)])])])
      end
  end.

(** The operation object [path] built by [addPath]. *)
Definition operation (tys : list (string * type_decl)) (r : oa_request)
  (c : oa_controller) : result json :=
  match resolveParameters tys r with
  | Throw e => Throw e
  | Ok params =>
      match resolveBody r with
      | Throw e => Throw e
      | Ok body =>
          Ok (JObject
                [("description", js_opt_string (first_comment (oa_docs r)));
                 ("parameters", params);
                 ("responses", resolveResponses (oa_res r) (returns_doc (oa_docs r)));
                 ("requestBody", body);
                 ("tags", JArray [JString (oc_name c)])])
      end
  end.

End Writer.

(** The names [k in obj] finds on any object through [Object.prototype]. *)
Definition object_prototype_names : list string :=
  ["constructor"; "hasOwnProperty"; "isPrototypeOf"; "propertyIsEnumerable";
   "toLocaleString"; "toString"; "valueOf"; "__proto__"; "__defineGetter__";
   "__defineSetter__"; "__lookupGetter__"; "__lookupSetter__"].

(** [k in obj] on a plain object. *)
Definition js_in (k : string) (fs : list (string * json)) : bool :=
  existsb (String.eqb k) (map fst fs) || existsb (String.eqb k) object_prototype_names.

(** [if (!(url in doc.paths)) doc.paths[url] = {};
    doc.paths[url][method] = path].  When [url] only names an inherited
    member, the assignment adds no own property to the document. *)
Definition add_operation (u m : string) (op : json) (paths : list (string * json))
  : list (string * json) :=
  let paths := if js_in u paths then paths else js_assign u (JObject []) paths in
  match obj_get u paths with
  | Some (JObject item) => obj_set u (JObject (js_assign m op item)) paths
  | _ => paths
  end.

Section Paths.
Variable info : param -> param_info.
Variable prop_optional : property_decl -> bool.
Variable fuel : nat.

(** [addPath(request, controller)] on [doc.paths]. *)
Definition addPath (tys : list (string * type_decl)) (r : oa_request) (c : oa_controller)
  (paths : list (string * json)) : result (list (string * json)) :=
  match operation info prop_optional fuel tys r c with
  | Throw e => Throw e
  | Ok op =>
      Ok (add_operation (resolveUrl (Axios.url (oa_req r)) (oc_baseUrl c))
            (NestjsRequests.to_lower (Axios.method (oa_req r))) op paths)
  end.

(** [addTag(controller)] on [doc.tags]. *)
Definition addTag (c : oa_controller) (tags : list json) : list json :=
  let description := match oc_docs c with
                     | [] => None
                     | d :: _ => d
                     end in
  if js_falsy_str description then tags
  else tags ++ [JObject [("name", JString (oc_name c));
                         ("description", js_opt_string description)]].

Fixpoint add_requests (tys : list (string * type_decl)) (c : oa_controller)
  (rs : list oa_request) (paths : list (string * json)) : result (list (string * json)) :=
  match rs with
  | [] => Ok paths
  | r :: rest =>
      match addPath tys r c paths with
      | Throw e => Throw e
      | Ok paths' => add_requests tys c rest paths'
      end
  end.

(** The second loop of [write]. *)
Fixpoint add_controllers (tys : list (string * type_decl)) (cs : list oa_controller)
  (paths : list (string * json)) (tags : list json)
  : result (list (string * json) * list json) :=
  match cs with
  | [] => Ok (paths, tags)
  | c :: rest =>
      let tags' := addTag c tags in
      match add_requests tys c (oc_requests c) paths with
      | Throw e => Throw e
      | Ok paths' => add_controllers tys rest paths' tags'
      end
  end.

(** [write()]: the document before [JSON.stringify] ([json_clean]). *)
Definition write (info_doc : json) (decls : list type_decl) (cs : list oa_controller)
  : result json :=
  match addComponents decls (mkWriter [] []) with
  | Throw e => Throw e
  | Ok w =>
      match add_controllers (types w) cs [] [] with
      | Throw e => Throw e
      | Ok (paths, tags) =>
          Ok (JObject [("openapi", JString "3.0.0"); ("info", info_doc);
                       ("paths", JObject paths);
                       ("components", JObject [("schemas", JObject (schemas w))]);
                       ("tags", JArray tags)])
      end
  end.

End Paths.

End OpenAPIWriter.

(* ================================================================== *)
(** * Vocabulary of the properties *)

Module Spec.
Import Nestjs.

(** A parameter whose [name] decorator has no usable property name: the
    test [!property] of the extraction loops holds for it. *)
Definition unnamed_binding (name : string) (p : param) : bool :=
  match getDecorator name p with
  | Some d => js_falsy_str (literal_property d)
  | None => false
  end.

(** A binding as the request can hold it: absent, Whole, or a non-empty
    sequence of partials. *)
Definition wf_binding (o : option binding) : Prop :=
  match o with
  | Some (Partials []) => False
  | _ => True
  end.

Definition wf_partials (o : option (list partial)) : Prop :=
  o <> Some [].


(** The first property assignment named [k] of an object literal. *)
Fixpoint find_prop (k : string) (ps : list Axios.obj_element) : option Axios.expr :=
  match ps with
  | [] => None
  | Axios.PropertyAssignment n e :: rest =>
      if String.eqb n k then Some e else find_prop k rest
  | Axios.SpreadAssignment _ :: rest => find_prop k rest
  end.

Definition prop_names (ps : list Axios.obj_element) : list string :=
  flat_map (fun e => match e with
                     | Axios.PropertyAssignment n _ => [n]
                     | Axios.SpreadAssignment _ => []
                     end) ps.

(** The formal parameter of the last partial declaring field [k], after
    starting from [acc]. *)
Definition last_value_from (k : string) (l : list partial) (acc : option string)
  : option string :=
  fold_left (fun acc pp => if String.eqb (property pp) k
                           then Some (param_name (parameter pp)) else acc) l acc.

Definition last_value (k : string) (l : list partial) : option string :=
  last_value_from k l None.

(** The value of [params] / [data] for a binding: the Whole parameter's
    identifier, or an object literal with one property per distinct
    field name, holding the identifier of the last partial declaring it. *)
Definition merged_ok (b : binding) (v : Axios.expr) : Prop :=
  match b with
  | Whole p => v = Axios.Identifier (param_name p)
  | Partials l =>
      exists ps : list Axios.obj_element, v = Axios.ObjectLiteralExpression ps /\
        NoDup (prop_names ps) /\
        forall k, find_prop k ps = option_map Axios.Identifier (last_value k l)
  end.

Fixpoint str_assoc {A : Type} (k : string) (m : list (string * A)) : option A :=
  match m with
  | [] => None
  | (k', v) :: rest => if String.eqb k k' then Some v else str_assoc k rest
  end.

Definition starts_with_slash (s : string) : bool :=
  match String.get 0 s with
  | Some c => Ascii.eqb c Axios.slash
  | None => false
  end.

Definition ends_with_slash (s : string) : bool :=
  match String.get (String.length s - 1) s with
  | Some c => Ascii.eqb c Axios.slash
  | None => false
  end.

Fixpoint no_double_slash (s : string) : bool :=
  match s with
  | String a ((String b _) as rest) =>
      negb (Ascii.eqb a Axios.slash && Ascii.eqb b Axios.slash) && no_double_slash rest
  | _ => true
  end.


(** An [Object] schema node of [resolveObjectSchema] whose [properties]
    are exactly the given declared properties, one key each, but for a
    property named [__proto__]. *)
Definition own_object_schema (self : OpenAPI.json) (props : list OpenAPI.property_decl)
  : Prop :=
  exists d fs,
    self = OpenAPI.JObject [("type", OpenAPI.JString "object"); ("description", d);
                           ("properties", OpenAPI.JObject fs)] /\
    NoDup (map fst fs) /\
    forall k, In k (map fst fs) <-> In k (map OpenAPI.prop_name props) /\ k <> "__proto__".

(** A type annotation holding a qualified type name ([A.B]) where
    [resolveNodeSchema] reads one: at its top, in an array's element
    type or in a union member. *)
Fixpoint has_qualified_ref (n : OpenAPI.type_node) : bool :=
  match n with
  | OpenAPI.ArrayType e => has_qualified_ref e
  | OpenAPI.UnionType ms => existsb has_qualified_ref ms
  | OpenAPI.TypeReference (OpenAPI.QualifiedName _) _ => true
  | _ => false
  end.

(** A type annotation that is present and holds no qualified type name. *)
Definition annotation_ok (tn : option OpenAPI.type_node) : bool :=
  match tn with
  | Some n => negb (has_qualified_ref n)
  | None => false
  end.

Definition props_resolvable (props : list OpenAPI.property_decl) : bool :=
  forallb (fun p => annotation_ok (OpenAPI.prop_type p)) props.


(** Structural views of a string used to reason about [joinPaths]. *)
Fixpoint last_char (s : string) : option ascii :=
  match s with
  | EmptyString => None
  | String c rest =>
      match rest with
      | EmptyString => Some c
      | _ => last_char rest
      end
  end.

Fixpoint drop_last (s : string) : string :=
  match s with
  | EmptyString => EmptyString
  | String c rest =>
      match rest with
      | EmptyString => EmptyString
      | _ => String c (drop_last rest)
      end
  end.

Definition head_is_slash (s : string) : bool :=
  match s with
  | String c _ => Ascii.eqb c Axios.slash
  | EmptyString => false
  end.

Fixpoint no_line_terminator (s : string) : bool :=
  match s with
  | EmptyString => true
  | String c rest => negb (Axios.is_line_terminator c) && no_line_terminator rest
  end.

End Spec.



(* ------------------------------------------------------------------ *)
(** ** Sample inputs *)

Module Samples.
Import Nestjs.

Definition nl : string := String (ascii_of_nat 10) EmptyString.

(** [@Query('id') id], [@Query() opts], [@Query('') blank] *)
Definition q_id : param := mkParam "id" [mkDecorator "Query" [ArgStringLiteral "id"]].
Definition q_opts : param := mkParam "opts" [mkDecorator "Query" []].
Definition q_blank : param := mkParam "blank" [mkDecorator "Query" [ArgStringLiteral ""]].

(** [@Body('name') name], [@Body(new ValidationPipe()) dto] *)
Definition b_name : param := mkParam "name" [mkDecorator "Body" [ArgStringLiteral "name"]].
Definition b_dto : param := mkParam "dto" [mkDecorator "Body" [ArgOther]].

(** [@Param('uid') uid], [@Param('pid') pid], [@Param('') id] *)
Definition p_uid : param := mkParam "uid" [mkDecorator "Param" [ArgStringLiteral "uid"]].
Definition p_pid : param := mkParam "pid" [mkDecorator "Param" [ArgStringLiteral "pid"]].
Definition p_blank : param := mkParam "id" [mkDecorator "Param" [ArgStringLiteral ""]].

(** [@Query('id') a, @Query('id') b] *)
Definition q_a : param := mkParam "a" [mkDecorator "Query" [ArgStringLiteral "id"]].
Definition q_b : param := mkParam "b" [mkDecorator "Query" [ArgStringLiteral "id"]].

Definition r_dup_query : Axios.request :=
  Axios.mkRequest "get" "/x" None
    (Some (Partials [mkPartial "id" q_a; mkPartial "id" q_b])) None.

Definition r_two_params : Axios.request :=
  Axios.mkRequest "get" "/users/:uid/:pid"
    (Some [mkPartial "uid" p_uid; mkPartial "pid" p_pid]) None None.

(** [enum Mixed { A = 1, B = 'b' }] *)
Definition e_mixed : OpenAPI.enum_decl :=
  OpenAPI.mkEnum "Mixed" None [OpenAPI.EnumNumber 1; OpenAPI.EnumString "b"].

(** The [undefined] type. *)
Definition t_undefined : OpenAPI.ty :=
  OpenAPI.MkTy true false false false false false false false None false false
    "undefined" None None false.

(** [class User extends Base { name: string }] *)
Definition c_user : OpenAPI.class_decl :=
  OpenAPI.mkClass "User" None (Some "Base") []
    [OpenAPI.mkProperty "name" (Some OpenAPI.StringKeyword) None] [].




End Samples.

Module Shapes.
Import Nestjs Axios.

(** [p] carries a decorator of that name. *)
Definition has_decorator (name : string) (p : param) : bool :=
  match getDecorator name p with
  | Some _ => true
  | None => false
  end.

(** [m] is a route handler: it has a verb decorator. *)
Definition is_route (m : NestjsRequests.method_decl) : bool :=
  match NestjsRequests.getVerb m with
  | Some _ => true
  | None => false
  end.

(** [c] is a controller class. *)
Definition is_controller (c : NestjsRequests.class_info) : bool :=
  match find (fun d => String.eqb (NestjsRequests.rd_name d) "Controller")
              (NestjsRequests.ci_decorators c) with
  | Some _ => true
  | None => false
  end.

(** [s] holds no character [c]. *)
Fixpoint no_char (c : ascii) (s : string) : bool :=
  match s with
  | EmptyString => true
  | String c' rest => negb (Ascii.eqb c' c) && no_char c rest
  end.

(** [:n1/l1:n2/l2...]: each piece preceded by a colon. *)
Fixpoint colon_pieces (ps : list string) : string :=
  match ps with
  | [] => EmptyString
  | p :: rest => String colon (p ++ colon_pieces rest)
  end.

(** A route URL with placeholders: a head, placeholders each followed
    by a literal segment, and a last placeholder with or without a
    literal segment after it. *)
Definition mid_piece (nl : string * string) : string :=
  (fst nl ++ String slash (snd nl))%string.

Definition last_piece (nl : string * option string) : string :=
  match snd nl with
  | Some l => (fst nl ++ String slash l)%string
  | None => fst nl
  end.

Definition placeholder_url (head : string) (mids : list (string * string))
  (last : string * option string) : string :=
  (head ++ colon_pieces (map mid_piece mids ++ [last_piece last]))%string.

Definition wf_mid (nl : string * string) : bool :=
  no_char colon (fst nl) && no_char slash (fst nl) && no_char colon (snd nl) &&
  Spec.no_line_terminator (snd nl) && negb (String.eqb (snd nl) "").

Definition wf_last (nl : string * option string) : bool :=
  no_char colon (fst nl) && no_char slash (fst nl) &&
  match snd nl with
  | Some l => no_char colon l && Spec.no_line_terminator l && negb (String.eqb l "")
  | None => true
  end.

(** The template that substitutes each placeholder by the identifier of
    its name and keeps the literal segments. *)
Definition expected_template (head : string) (mids : list (string * string))
  (last : string * option string) : expr :=
  TemplateExpression head
    (map (fun nl => (Identifier (fst nl), TemplateMiddle ("/" ++ snd nl))) mids ++
     [(Identifier (fst last),
       TemplateTail (match snd last with Some l => "/" ++ l | None => "" end))]).

End Shapes.

Module WriterShapes.
Import OpenAPI OpenAPIWriter.

(** Reading a resolved URL back: [{] as the colon it replaced, [}]
    dropped. *)
Fixpoint unbrace (s : string) : string :=
  match s with
  | EmptyString => EmptyString
  | String c rest =>
      if Ascii.eqb c "{"%char then String Axios.colon (unbrace rest)
      else if Ascii.eqb c "}"%char then unbrace rest
      else String c (unbrace rest)
  end.

(** The declarations [addComponent] registers: all but type aliases. *)
Definition is_component (d : type_decl) : bool :=
  match d with
  | TTypeAlias _ => false
  | _ => true
  end.

(** The schema [addComponent] stores for a declaration whose resolution
    succeeds; [None] for a type alias. *)
Definition component_value (d : type_decl) : option json :=
  match component_schema d with
  | Ok o => o
  | Throw _ => None
  end.

(** The last registered declaration named [n] of a list. *)
Definition last_component (n : string) (ds : list type_decl) : option type_decl :=
  find (fun d => String.eqb (decl_name d) n && is_component d) (rev ds).

(** A checker type that is a union of the given members. *)
Definition union_ty (ms : list ty) (text : string) : ty :=
  MkTy false false false false false false false false None false false text
       (Some ms) None false.

(** [isUndefined() || isNull()] *)
Definition ty_nullish (t : ty) : bool :=
  match t with
  | MkTy u n _ _ _ _ _ _ _ _ _ _ _ _ _ => u || n
  end.

(** [paths[u][m]] of a [paths] object. *)
Definition path_lookup (paths : list (string * json)) (u m : string) : option json :=
  match obj_get u paths with
  | Some (JObject item) => obj_get m item
  | _ => None
  end.

(** The name, location and [required] flag of a parameter object. *)
Definition param_summary (o : json) : option json * option json * option json :=
  (json_get_path ["name"] o, json_get_path ["in"] o, json_get_path ["required"] o).

Definition expected_summary (info : Nestjs.param -> param_info) (inn : string)
  (pp : Nestjs.partial) : option json * option json * option json :=
  (Some (JString (Nestjs.property pp)), Some (JString inn),
   Some (JBool (negb (pi_optional (info (Nestjs.parameter pp)))))).

End WriterShapes.

Module WriterSamples.
Import OpenAPI OpenAPIWriter.

Definition prop_of (n : string) : property_decl := mkProperty n (Some StringKeyword) None.

(** [class C { c }], [class B extends C { b }], [class A extends B { a }]. *)
Definition class_C : type_decl :=
  TClass (mkClass "C" None None [] [prop_of "c"] []) None.
Definition class_B : type_decl :=
  TClass (mkClass "B" None (Some "C") [] [prop_of "b"] []) (Some (Some "C")).
Definition class_A : type_decl :=
  TClass (mkClass "A" None (Some "B") [] [prop_of "a"] []) (Some (Some "B")).

Definition sample_types : list (string * type_decl) :=
  match addComponents [class_C; class_B; class_A] (mkWriter [] []) with
  | Ok w => types w
  | Throw _ => []
  end.

End WriterSamples.

Module ExtraSamples.
Import Nestjs NestjsRequests OpenAPI OpenAPIWriter.

(** [@Get(':uid') find(@Param('uid') uid)] and a method without a verb. *)
Definition m_find : method_decl :=
  mkMethod [mkRouteDecorator "Get" [NestjsPath.NStringLiteral ":uid"]] [Samples.p_uid].
Definition m_helper : method_decl := mkMethod [] [].

(** [users.controller] holding [@Controller('users') class UsersController]. *)
Definition users_file : string * list class_info :=
  ("users.controller",
   [mkClassInfo [mkRouteDecorator "Controller" [NestjsPath.NStringLiteral "users"]] []
                [m_find; m_helper]]).

(** Every parameter annotated [string], or annotated by the name [Filter]. *)
Definition info_string : param -> param_info :=
  fun _ => mkParamInfo (Some StringKeyword) false [].
Definition info_filter : param -> param_info :=
  fun _ => mkParamInfo (Some (TypeReference (Identifier "Filter") [])) false [].
Definition no_optional : property_decl -> bool := fun _ => false.

(** [GET /:uid] with [@Param('uid')], [GET /] with a Whole [@Query() opts],
    [POST /] with a Whole [@Body() dto]. *)
Definition oa_find : oa_request :=
  mkOARequest (Axios.mkRequest "get" "/:uid" (Some [mkPartial "uid" Samples.p_uid]) None None)
    Samples.t_undefined [].
Definition oa_filtered : oa_request :=
  mkOARequest (Axios.mkRequest "get" "/" None (Some (Whole Samples.q_opts)) None)
    Samples.t_undefined [].
Definition oa_create : oa_request :=
  mkOARequest (Axios.mkRequest "post" "/" None None (Some (Whole Samples.b_dto)))
    Samples.t_undefined [].

Definition users_controller : oa_controller :=
  mkOAController "users" "users" [] [oa_find; oa_create].

End ExtraSamples.

(* ================================================================== *)
(** * Properties *)

Module NestjsFacts.
Import Nestjs Spec.

Lemma pairs_app : forall name l1 l2,
  pairs name (l1 ++ l2) = pairs name l1 ++ pairs name l2.
Proof.
  intros name l1 l2; induction l1 as [|p l1 IH]; simpl; [reflexivity|].
  destruct (getDecorator name p); rewrite IH; reflexivity.
Qed.

Lemma pairs_In : forall name ps p d,
  In (p, d) (pairs name ps) <-> In p ps /\ getDecorator name p = Some d.
Proof.
  intros name ps; induction ps as [|q ps IH]; intros p d; simpl.
  - tauto.
  - destruct (getDecorator name q) as [d'|] eqn:E; simpl; rewrite IH.
    + split.
      * intros [H|H]; [injection H as <- <-; auto|tauto].
      * intros [[<-|H1] H2]; [left; rewrite E in H2; congruence|auto].
    + split; [tauto|].
      intros [[<-|H1] H2]; [congruence|auto].
Qed.

Lemma pairs_named : forall name before,
  forallb (fun q => negb (unnamed_binding name q)) before = true ->
  Forall (fun pd => js_falsy_str (literal_property (snd pd)) = false) (pairs name before).
Proof.
  intros name before; induction before as [|q before IH]; simpl; intros H.
  - constructor.
  - apply andb_true_iff in H as [Hq Hr].
    unfold unnamed_binding in Hq.
    destruct (getDecorator name q) as [d|]; [constructor|]; auto.
    simpl. now apply negb_true_iff.
Qed.

Lemma collect_first_whole : forall pre p d post acc,
  Forall (fun pd => js_falsy_str (literal_property (snd pd)) = false) pre ->
  js_falsy_str (literal_property d) = true ->
  collect (pre ++ (p, d) :: post) acc = Some (Whole p).
Proof.
  induction pre as [|[q e] pre IH]; intros p d post acc Hpre Hd; simpl.
  - now rewrite Hd.
  - inversion Hpre as [|? ? He Hrest]; subst; simpl in He.
    rewrite He.
    destruct (literal_property e) as [s|]; [now apply IH|discriminate].
Qed.

Lemma extract_first_whole : forall name before p after,
  unnamed_binding name p = true ->
  forallb (fun q => negb (unnamed_binding name q)) before = true ->
  exists prs, pairs name (before ++ p :: after) = prs /\ prs <> [] /\
    collect prs [] = Some (Whole p).
Proof.
  intros name before p after Hp Hbefore.
  unfold unnamed_binding in Hp.
  destruct (getDecorator name p) as [d|] eqn:Ed; [|discriminate].
  rewrite pairs_app. simpl. rewrite Ed.
  eexists; split; [reflexivity|split].
  - destruct (pairs name before); discriminate.
  - apply collect_first_whole; [now apply pairs_named|exact Hp].
Qed.

Lemma collect_wf : forall prs acc, wf_binding (collect prs acc).
Proof.
  induction prs as [|[p d] prs IH]; intros acc; simpl.
  - destruct acc; simpl; trivial.
  - destruct (js_falsy_str (literal_property d)); simpl; trivial.
    destruct (literal_property d); simpl; trivial.
Qed.

Lemma collect_params_wf : forall prs acc,
  match collect_params prs acc with
  | Ok o => wf_partials o
  | Throw _ => True
  end.
Proof.
  induction prs as [|[p d] prs IH]; intros acc; simpl.
  - destruct acc; unfold wf_partials; simpl; congruence.
  - destruct (js_falsy_str (literal_property d)); trivial.
    destruct (literal_property d); trivial.
    apply IH.
Qed.

Lemma collect_params_throws : forall prs acc,
  (exists msg, collect_params prs acc = Throw msg) <->
  exists pd, In pd prs /\ js_falsy_str (literal_property (snd pd)) = true.
Proof.
  induction prs as [|[p d] prs IH]; intros acc; simpl.
  - split.
    + intros [msg H]; destruct acc; discriminate.
    + intros [pd [[] _]].
  - destruct (js_falsy_str (literal_property d)) eqn:Hd.
    + split; [intros _; exists (p, d); auto|eauto].
    + destruct (literal_property d) as [s|] eqn:Hl; [|discriminate].
      rewrite IH. split.
      * intros [pd [Hin Hpd]]; eauto.
      * intros [pd [[<-|Hin] Hpd]]; [simpl in Hpd; rewrite Hl in Hpd; congruence|eauto].
Qed.

End NestjsFacts.

Module AxiosFacts.
Import Nestjs Axios Spec.

Lemma map_set_keys : forall k v m k',
  In k' (map fst (map_set k v m)) <-> k' = k \/ In k' (map fst m).
Proof.
  intros k v m k'; induction m as [|[k0 v0] m IH]; simpl.
  - split; intros [H|[]]; auto.
  - destruct (String.eqb k k0) eqn:E; simpl.
    + apply String.eqb_eq in E; subst.
      split; intros H; repeat destruct H as [H|H]; subst; simpl; auto.
    + rewrite IH.
      split; intros H; repeat destruct H as [H|H]; subst; simpl; auto.
Qed.

Lemma map_set_nodup : forall k v m,
  NoDup (map fst m) -> NoDup (map fst (map_set k v m)).
Proof.
  intros k v m; induction m as [|[k0 v0] m IH]; simpl; intros Hnd.
  - repeat constructor; simpl; tauto.
  - inversion Hnd as [|? ? Hnin Hnd']; subst.
    destruct (String.eqb k k0) eqn:E; simpl.
    + apply String.eqb_eq in E; subst; now constructor.
    + constructor; [|now apply IH].
      rewrite map_set_keys. apply String.eqb_neq in E.
      intros [H|H]; [congruence|contradiction].
Qed.

Lemma map_set_assoc : forall k v m k',
  str_assoc k' (map_set k v m) = if String.eqb k k' then Some v else str_assoc k' m.
Proof.
  intros k v m k'; induction m as [|[k0 v0] m IH]; simpl.
  - rewrite String.eqb_sym. reflexivity.
  - destruct (String.eqb k k0) eqn:E; simpl.
    + apply String.eqb_eq in E; subst.
      rewrite (String.eqb_sym k0 k'). destruct (String.eqb k' k0); reflexivity.
    + rewrite IH.
      destruct (String.eqb k k') eqn:E1, (String.eqb k' k0) eqn:E2; try reflexivity.
      apply String.eqb_eq in E1, E2; subst. rewrite String.eqb_refl in E. discriminate.
Qed.

Lemma merge_fold : forall l m,
  NoDup (map fst m) ->
  let m' := fold_left (fun m pp => map_set (property pp) (param_name (parameter pp)) m) l m in
  NoDup (map fst m') /\ forall k, str_assoc k m' = last_value_from k l (str_assoc k m).
Proof.
  induction l as [|pp l IH]; intros m Hnd; simpl.
  - split; auto.
  - destruct (IH (map_set (property pp) (param_name (parameter pp)) m)) as [H1 H2].
    { now apply map_set_nodup. }
    split; [exact H1|].
    intros k. rewrite H2, map_set_assoc. reflexivity.
Qed.

Lemma find_prop_of_map : forall m k,
  find_prop k (map (fun '(k, v) => PropertyAssignment k (Identifier v)) m)
  = option_map Identifier (str_assoc k m).
Proof.
  induction m as [|[k0 v0] m IH]; intros k; simpl; [reflexivity|].
  rewrite (String.eqb_sym k0 k). destruct (String.eqb k k0); simpl; auto.
Qed.

Lemma prop_names_of_map : forall m,
  prop_names (map (fun '(k, v) => PropertyAssignment k (Identifier v)) m) = map fst m.
Proof.
  induction m as [|[k0 v0] m IH]; simpl; [reflexivity|]. now rewrite IH.
Qed.

Lemma createMergedObjectExpression_ok : forall b,
  merged_ok b (createMergedObjectExpression b).
Proof.
  intros [p|l]; simpl; [reflexivity|].
  destruct (merge_fold l [] (NoDup_nil _)) as [Hnd Hk].
  eexists; split; [reflexivity|split].
  - rewrite prop_names_of_map. exact Hnd.
  - intros k. rewrite find_prop_of_map, Hk. reflexivity.
Qed.

End AxiosFacts.

Module JoinFacts.
Import Axios Spec.

Lemma last_char_cons : forall c t, t <> EmptyString ->
  last_char (String c t) = last_char t.
Proof. intros c [|c' t] H; [contradiction|reflexivity]. Qed.

Lemma drop_last_cons : forall c t, t <> EmptyString ->
  drop_last (String c t) = String c (drop_last t).
Proof. intros c [|c' t] H; [contradiction|reflexivity]. Qed.

Lemma length_pos : forall t, t <> EmptyString -> 1 <= String.length t.
Proof. intros [|c t] H; [contradiction|simpl; lia]. Qed.

Lemma drop_last_length : forall s,
  String.length (drop_last s) = String.length s - 1.
Proof.
  induction s as [|c rest IH]; [reflexivity|].
  destruct (string_dec rest EmptyString) as [->|Hne]; [reflexivity|].
  rewrite drop_last_cons by exact Hne. cbn [String.length].
  rewrite IH. pose proof (length_pos rest Hne). lia.
Qed.

Lemma get_last : forall s, String.get (String.length s - 1) s = last_char s.
Proof.
  induction s as [|c rest IH]; [reflexivity|].
  destruct (string_dec rest EmptyString) as [->|Hne]; [reflexivity|].
  rewrite last_char_cons by exact Hne. rewrite <- IH.
  pose proof (length_pos rest Hne).
  cbn [String.length].
  replace (S (String.length rest) - 1) with (S (String.length rest - 1)) by lia.
  reflexivity.
Qed.

Lemma get_second_last : forall s, 2 <= String.length s ->
  String.get (String.length s - 2) s = last_char (drop_last s).
Proof.
  induction s as [|c rest IH]; cbn [String.length]; intros Hlen; [lia|].
  destruct rest as [|c' r']; [cbn [String.length] in Hlen; lia|].
  destruct (string_dec r' EmptyString) as [->|Hne]; [reflexivity|].
  remember (String c' r') as rest eqn:Hrest.
  assert (Hrne : rest <> EmptyString) by (subst; discriminate).
  assert (H2 : 2 <= String.length rest)
    by (subst; cbn [String.length]; pose proof (length_pos r' Hne); lia).
  rewrite drop_last_cons by exact Hrne.
  rewrite last_char_cons.
  2:{ intros Hd. pose proof (drop_last_length rest) as L. rewrite Hd in L.
      cbn [String.length] in L. lia. }
  rewrite <- (IH H2).
  replace (S (String.length rest) - 2) with (S (String.length rest - 2)) by lia.
  reflexivity.
Qed.

Lemma substring_drop_last : forall s,
  substring 0 (String.length s - 1) s = drop_last s.
Proof.
  induction s as [|c rest IH]; [reflexivity|].
  destruct (string_dec rest EmptyString) as [->|Hne]; [reflexivity|].
  rewrite drop_last_cons by exact Hne. rewrite <- IH.
  pose proof (length_pos rest Hne).
  cbn [String.length].
  replace (S (String.length rest) - 1) with (S (String.length rest - 1)) by lia.
  reflexivity.
Qed.

Lemma trim_cases : forall s,
  trim_trailing_slash s = s \/
  (2 <= String.length s /\ trim_trailing_slash s = drop_last s).
Proof.
  intros s. unfold trim_trailing_slash.
  destruct (Nat.ltb (String.length s) 2) eqn:L; [now left|].
  apply Nat.ltb_ge in L.
  destruct (String.get (String.length s - 1) s) as [c|]; [|now left].
  destruct (String.get (String.length s - 2) s) as [c'|]; [|now left].
  destruct (Ascii.eqb c slash && negb (is_line_terminator c')); [|now left].
  right. split; [exact L|]. apply substring_drop_last.
Qed.

Lemma trim_drops : forall s c',
  2 <= String.length s -> last_char s = Some slash ->
  last_char (drop_last s) = Some c' -> is_line_terminator c' = false ->
  trim_trailing_slash s = drop_last s.
Proof.
  intros s c' L Hl Hl' Hc'. unfold trim_trailing_slash.
  destruct (Nat.ltb (String.length s) 2) eqn:L'; [apply Nat.ltb_lt in L'; lia|].
  rewrite get_last, (get_second_last s L), Hl, Hl', Hc'. simpl.
  apply substring_drop_last.
Qed.

Lemma no_double_cons_slash : forall c t,
  head_is_slash t = false -> no_double_slash (String c t) = no_double_slash t.
Proof.
  intros c [|b t] H; [reflexivity|]. simpl in H |- *.
  rewrite H, andb_false_r. reflexivity.
Qed.

Lemma no_double_cons_other : forall c t,
  Ascii.eqb c slash = false -> no_double_slash (String c t) = no_double_slash t.
Proof.
  intros c [|b t] H; [reflexivity|]. simpl. rewrite H. reflexivity.
Qed.

Lemma collapse_no_double : forall s prev,
  no_double_slash (collapse_slashes prev s) = true /\
  (prev = true -> head_is_slash (collapse_slashes prev s) = false).
Proof.
  induction s as [|c rest IH]; intros prev; simpl; [split; reflexivity|].
  destruct (Ascii.eqb c slash) eqn:Ec; [destruct prev|].
  - apply IH.
  - destruct (IH true) as [H1 H2]. split; [|discriminate].
    rewrite no_double_cons_slash by (now apply H2). exact H1.
  - destruct (IH false) as [H1 _]. split.
    + rewrite no_double_cons_other by exact Ec. exact H1.
    + intros _. exact Ec.
Qed.

Lemma collapse_false_nonempty : forall s,
  s <> EmptyString -> collapse_slashes false s <> EmptyString.
Proof.
  intros [|c rest] H; [contradiction|]. simpl.
  destruct (Ascii.eqb c slash); discriminate.
Qed.

Lemma collapse_last_slash : forall s prev,
  last_char s = Some slash ->
  collapse_slashes prev s = EmptyString \/ last_char (collapse_slashes prev s) = Some slash.
Proof.
  induction s as [|c rest IH]; intros prev H; [discriminate|].
  destruct (string_dec rest EmptyString) as [->|Hne].
  - simpl in H. injection H as ->. destruct prev; simpl; auto.
  - rewrite last_char_cons in H by exact Hne. simpl.
    destruct (Ascii.eqb c slash) eqn:Ec; [destruct prev|].
    + now apply IH.
    + right. destruct (IH true H) as [He|Hl].
      * rewrite He. apply Ascii.eqb_eq in Ec. now subst.
      * rewrite last_char_cons; [exact Hl|]. intros He; rewrite He in Hl; discriminate.
    + right. rewrite last_char_cons by (now apply collapse_false_nonempty).
      destruct (IH false H) as [He|Hl]; [|exact Hl].
      exfalso. exact (collapse_false_nonempty rest Hne He).
Qed.

Lemma collapse_no_lt : forall s prev,
  no_line_terminator s = true -> no_line_terminator (collapse_slashes prev s) = true.
Proof.
  induction s as [|c rest IH]; intros prev H; simpl in *; [reflexivity|].
  apply andb_true_iff in H as [Hc Hr].
  destruct (Ascii.eqb c slash); [destruct prev|]; simpl;
    try rewrite Hc; simpl; auto.
Qed.

Lemma no_lt_drop_last : forall s,
  no_line_terminator s = true -> no_line_terminator (drop_last s) = true.
Proof.
  induction s as [|c rest IH]; intros H; [reflexivity|].
  destruct (string_dec rest EmptyString) as [->|Hne]; [reflexivity|].
  rewrite drop_last_cons by exact Hne. simpl in *.
  apply andb_true_iff in H as [Hc Hr]. rewrite Hc. simpl. auto.
Qed.

Lemma no_lt_last : forall s c,
  no_line_terminator s = true -> last_char s = Some c -> is_line_terminator c = false.
Proof.
  induction s as [|c0 rest IH]; intros c H Hl; [discriminate|].
  simpl in H. apply andb_true_iff in H as [Hc Hr].
  destruct (string_dec rest EmptyString) as [->|Hne].
  - simpl in Hl. injection Hl as <-. now apply negb_true_iff.
  - rewrite last_char_cons in Hl by exact Hne. eauto.
Qed.

Lemma no_double_tail : forall c t,
  no_double_slash (String c t) = true -> no_double_slash t = true.
Proof.
  intros c [|b t] H; [reflexivity|]. simpl in H. now apply andb_true_iff in H as [_ H].
Qed.

Lemma no_double_drop_last : forall s,
  no_double_slash s = true -> no_double_slash (drop_last s) = true.
Proof.
  induction s as [|c rest IH]; intros H; [reflexivity|].
  destruct rest as [|c' r']; [reflexivity|].
  destruct (string_dec r' EmptyString) as [->|Hne]; [reflexivity|].
  rewrite drop_last_cons by discriminate.
  rewrite (drop_last_cons c' r' Hne) in IH |- *.
  simpl in H |- *. apply andb_true_iff in H as [H1 H2].
  rewrite H1. simpl. apply IH. exact H2.
Qed.

Lemma drop_last_not_slash : forall s,
  no_double_slash s = true -> last_char s = Some slash ->
  last_char (drop_last s) <> Some slash.
Proof.
  induction s as [|c rest IH]; intros H Hl; [discriminate|].
  destruct (string_dec rest EmptyString) as [->|Hne]; [simpl; discriminate|].
  rewrite drop_last_cons by exact Hne.
  rewrite last_char_cons in Hl by exact Hne.
  destruct rest as [|c' r']; [contradiction|].
  destruct (string_dec r' EmptyString) as [->|Hne'].
  - simpl in Hl. injection Hl as ->. simpl in H.
    destruct (Ascii.eqb c slash) eqn:Ec; [discriminate|].
    simpl. intros Hs. injection Hs as ->. discriminate.
  - rewrite last_char_cons.
    + apply IH; [exact (no_double_tail c _ H)|exact Hl].
    + rewrite drop_last_cons by exact Hne'. discriminate.
Qed.

Lemma last_char_some : forall s, s <> EmptyString -> exists c, last_char s = Some c.
Proof.
  induction s as [|c rest IH]; intros H; [contradiction|].
  destruct (string_dec rest EmptyString) as [->|Hne]; [simpl; eauto|].
  rewrite last_char_cons by exact Hne. now apply IH.
Qed.

Lemma last_char_app : forall a t, t <> EmptyString ->
  last_char (a ++ t) = last_char t.
Proof.
  induction a as [|c a IH]; intros t Ht; [reflexivity|].
  cbn [String.append]. rewrite last_char_cons; [now apply IH|].
  destruct a; simpl; [exact Ht|discriminate].
Qed.

Lemma no_lt_app : forall a b,
  no_line_terminator (a ++ b) = no_line_terminator a && no_line_terminator b.
Proof.
  induction a as [|c a IH]; intros b; [reflexivity|].
  simpl. rewrite IH. apply andb_assoc.
Qed.

Lemma join_ends_slash : forall rest a,
  last_char (js_join "/" (a :: rest ++ [""])) = Some slash.
Proof.
  induction rest as [|b rest IH]; intros a.
  - simpl. rewrite last_char_app by discriminate. reflexivity.
  - change (js_join "/" (a :: (b :: rest) ++ [""]))
      with (String.append a (String.append "/" (js_join "/" (b :: rest ++ [""])))).
    rewrite last_char_app by discriminate.
    cbn [String.append]. rewrite last_char_cons; [apply IH|].
    intros He. specialize (IH b). rewrite He in IH. discriminate.
Qed.

Lemma join_no_lt : forall rest a,
  forallb no_line_terminator (a :: rest) = true ->
  no_line_terminator (js_join "/" (a :: rest ++ [""])) = true.
Proof.
  induction rest as [|b rest IH]; intros a H; simpl in H;
    apply andb_true_iff in H as [Ha Hr].
  - simpl. rewrite no_lt_app, Ha. reflexivity.
  - change (js_join "/" (a :: (b :: rest) ++ [""]))
      with (String.append a (String.append "/" (js_join "/" (b :: rest ++ [""])))).
    rewrite no_lt_app, Ha. simpl. apply IH. exact Hr.
Qed.

(** [joinPaths] output always starts with a slash and never holds two
    slashes in a row; when no fragment holds a line terminator it ends
    with a slash only if it is ["/"]. *)
Lemma joinPaths_shape : forall args,
  let r := joinPaths args in
  starts_with_slash r = true /\ no_double_slash r = true /\
  (forallb no_line_terminator args = true -> ends_with_slash r = true -> r = "/").
Proof.
  intros [|a rest]; [split; [reflexivity|split; [reflexivity|auto]]|].
  unfold joinPaths.
  change (js_join "/" ([""] ++ (a :: rest) ++ [""]))
    with (String slash (js_join "/" (a :: rest ++ [""]))).
  set (Y := js_join "/" (a :: rest ++ [""])).
  change (collapse_slashes false (String slash Y))
    with (String slash (collapse_slashes true Y)).
  set (T := collapse_slashes true Y).
  assert (HndC : no_double_slash (String slash T) = true).
  { destruct (collapse_no_double (String slash Y) false) as [H _]. exact H. }
  destruct (string_dec T EmptyString) as [HT|HT].
  { rewrite HT. split; [reflexivity|split; [reflexivity|auto]]. }
  assert (HlT : last_char T = Some slash).
  { destruct (collapse_last_slash Y true (join_ends_slash rest a)) as [H|H];
      [contradiction|exact H]. }
  assert (HlC : last_char (String slash T) = Some slash)
    by (rewrite last_char_cons by exact HT; exact HlT).
  assert (HdC : drop_last (String slash T) = String slash (drop_last T))
    by (now apply drop_last_cons).
  assert (HlenC : 2 <= String.length (String slash T))
    by (cbn [String.length]; pose proof (length_pos T HT); lia).
  split; [|split].
  - destruct (trim_cases (String slash T)) as [->|[_ ->]]; [reflexivity|].
    rewrite HdC. reflexivity.
  - destruct (trim_cases (String slash T)) as [->|[_ ->]]; [exact HndC|].
    now apply no_double_drop_last.
  - intros Hargs Hends.
    assert (HnlC : no_line_terminator (String slash T) = true).
    { simpl. apply collapse_no_lt. apply join_no_lt. exact Hargs. }
    destruct (last_char (drop_last (String slash T))) as [c'|] eqn:Hc'.
    2:{ rewrite HdC in Hc'.
        destruct (last_char_some (String slash (drop_last T))) as [c0 Hc0];
          [discriminate|congruence]. }
    rewrite (trim_drops _ c' HlenC HlC Hc') in Hends.
    2:{ apply (no_lt_last (drop_last (String slash T)));
        [now apply no_lt_drop_last|exact Hc']. }
    exfalso. unfold ends_with_slash in Hends. rewrite get_last, Hc' in Hends.
    apply Ascii.eqb_eq in Hends. subst c'.
    exact (drop_last_not_slash _ HndC HlC Hc').
Qed.

End JoinFacts.

Module OpenAPIFacts.
Import OpenAPI.

Lemma obj_set_keys : forall k v fs k',
  In k' (map fst (obj_set k v fs)) <-> k' = k \/ In k' (map fst fs).
Proof.
  intros k v fs k'; induction fs as [|[k0 v0] fs IH]; simpl.
  - split; intros [H|[]]; auto.
  - destruct (String.eqb k k0) eqn:E; simpl.
    + apply String.eqb_eq in E; subst.
      split; intros H; repeat destruct H as [H|H]; subst; simpl; auto.
    + rewrite IH.
      split; intros H; repeat destruct H as [H|H]; subst; simpl; auto.
Qed.

Lemma obj_set_nodup : forall k v fs,
  NoDup (map fst fs) -> NoDup (map fst (obj_set k v fs)).
Proof.
  intros k v fs; induction fs as [|[k0 v0] fs IH]; simpl; intros Hnd.
  - repeat constructor; simpl; tauto.
  - inversion Hnd as [|? ? Hnin Hnd']; subst.
    destruct (String.eqb k k0) eqn:E; simpl.
    + apply String.eqb_eq in E; subst; now constructor.
    + constructor; [|now apply IH].
      rewrite obj_set_keys. apply String.eqb_neq in E.
      intros [H|H]; [congruence|contradiction].
Qed.

(** [resolveNodeSchema] throws, and then a TypeError, exactly on an
    annotation holding a qualified type name. *)
Lemma resolveNodeSchema_result : forall scope n,
  match resolveNodeSchema scope n with
  | Ok _ => Spec.has_qualified_ref n = false
  | Throw e => e = NestjsPath.type_error /\ Spec.has_qualified_ref n = true
  end.
Proof.
  fix IH 2. intros scope n.
  destruct n as [| | | |e| |ms|[name|name] args| |];
    cbn [resolveNodeSchema Spec.has_qualified_ref]; try reflexivity.
  - pose proof (IH scope e) as H. destruct (resolveNodeSchema scope e); exact H.
  - revert ms. fix IHl 1. intros [|m ms]; [reflexivity|].
    cbn [map_result existsb].
    pose proof (IH scope m) as Hm. destruct (resolveNodeSchema scope m) as [y|e].
    + pose proof (IHl ms) as Hl.
      destruct (map_result (resolveNodeSchema scope) ms) as [ys|e].
      * rewrite Hm. exact Hl.
      * rewrite Hm. exact Hl.
    + destruct Hm as [He Hm]. rewrite Hm. split; [exact He|reflexivity].
  - destruct args; reflexivity.
  - split; reflexivity.
Qed.

Lemma node_schema_result : forall scope tn,
  match node_schema scope tn with
  | Ok _ => Spec.annotation_ok tn = true
  | Throw e => e = NestjsPath.type_error /\ Spec.annotation_ok tn = false
  end.
Proof.
  intros scope [n|]; [|split; reflexivity]. cbn [node_schema Spec.annotation_ok].
  pose proof (resolveNodeSchema_result scope n) as H.
  destruct (resolveNodeSchema scope n).
  - rewrite H. reflexivity.
  - destruct H as [H1 H2]. rewrite H2. split; [exact H1|reflexivity].
Qed.

(** The [reduce] of [resolveObjectSchema] throws a TypeError exactly when
    some property's annotation is missing or holds a qualified name;
    otherwise it adds one key per declared property name other than
    [__proto__], and no other. *)
Lemma object_properties_result : forall scope props acc,
  NoDup (map fst acc) -> ~ In "__proto__"%string (map fst acc) ->
  match object_properties scope acc props with
  | Ok fs =>
      Spec.props_resolvable props = true /\ NoDup (map fst fs) /\
      forall k, In k (map fst fs) <->
                In k (map fst acc) \/ (In k (map prop_name props) /\ k <> "__proto__"%string)
  | Throw e => e = NestjsPath.type_error /\ Spec.props_resolvable props = false
  end.
Proof.
  intros scope props. induction props as [|p props IH]; intros acc Hnd Hp;
    cbn [object_properties].
  - split; [reflexivity|split; [exact Hnd|]]. intros k; simpl; tauto.
  - pose proof (node_schema_result scope (prop_type p)) as Hn.
    cbn [Spec.props_resolvable forallb]. fold (Spec.props_resolvable props).
    destruct (node_schema scope (prop_type p)) as [schema|e].
    + set (acc' := js_assign (prop_name p)
                     (with_description schema (js_opt_string (prop_doc p))) acc).
      destruct (String.eqb (prop_name p) "__proto__") eqn:Ep.
      * apply String.eqb_eq in Ep.
        assert (Ea : acc' = acc) by (unfold acc', js_assign; now rewrite Ep).
        specialize (IH acc' ltac:(now rewrite Ea) ltac:(now rewrite Ea)).
        destruct (object_properties scope acc' props) as [fs|e].
        -- destruct IH as [R [N K]]. rewrite Hn, R. split; [reflexivity|split; [exact N|]].
           intros k. rewrite K, Ea. simpl. rewrite Ep. intuition congruence.
        -- destruct IH as [E R]. rewrite Hn, R. split; [exact E|reflexivity].
      * apply String.eqb_neq in Ep.
        assert (Ea : acc' = obj_set (prop_name p)
                              (with_description schema (js_opt_string (prop_doc p))) acc).
        { unfold acc', js_assign. destruct (String.eqb (prop_name p) "__proto__") eqn:E;
            [apply String.eqb_eq in E; contradiction|reflexivity]. }
        assert (Hnd' : NoDup (map fst acc')) by (rewrite Ea; now apply obj_set_nodup).
        assert (Hp' : ~ In "__proto__"%string (map fst acc')).
        { rewrite Ea, obj_set_keys. intros [H|H]; [congruence|contradiction]. }
        specialize (IH acc' Hnd' Hp').
        destruct (object_properties scope acc' props) as [fs|e].
        -- destruct IH as [R [N K]]. rewrite Hn, R. split; [reflexivity|split; [exact N|]].
           intros k. rewrite K, Ea, obj_set_keys. simpl. intuition congruence.
        -- destruct IH as [E R]. rewrite Hn, R. split; [exact E|reflexivity].
    + destruct Hn as [E R]. rewrite R. split; [exact E|reflexivity].
Qed.

Lemma resolveObjectSchema_result : forall doc props scope,
  match resolveObjectSchema doc props scope with
  | Ok self => Spec.props_resolvable props = true /\ Spec.own_object_schema self props
  | Throw e => e = NestjsPath.type_error /\ Spec.props_resolvable props = false
  end.
Proof.
  intros doc props scope. unfold resolveObjectSchema.
  pose proof (object_properties_result scope props [] (NoDup_nil _) (fun H => H)) as H.
  destruct (object_properties scope [] props) as [fs|e]; [|exact H].
  destruct H as [R [N K]]. split; [exact R|].
  do 2 eexists. split; [reflexivity|split; [exact N|]].
  intros k. rewrite K. simpl. tauto.
Qed.

End OpenAPIFacts.

Module PathFacts.
Import NestjsPath.

Lemma element_texts_strings : forall ss,
  element_texts (map NStringLiteral ss) = Ok ss.
Proof.
  induction ss as [|s ss IH]; simpl; [reflexivity|]. now rewrite IH.
Qed.

Lemma element_texts_error : forall es m,
  element_texts es = Throw m -> m = type_error.
Proof.
  induction es as [|e es IH]; simpl; intros m H; [discriminate|].
  destruct e; simpl in H; try (injection H as <-; reflexivity).
  destruct (element_texts es) eqn:E; [discriminate|].
  injection H as <-. now apply IH.
Qed.

Lemma element_texts_non_string : forall es e,
  In e es -> (forall s, e <> NStringLiteral s) -> element_texts es = Throw type_error.
Proof.
  induction es as [|e0 es IH]; simpl; intros e Hin Hns; [contradiction|].
  destruct Hin as [->|Hin].
  - destruct e; simpl; try reflexivity. exfalso; eapply Hns; reflexivity.
  - destruct e0; simpl; try reflexivity.
    now rewrite (IH e Hin Hns).
Qed.

(** [getLiteralPath] only ever throws one of its two errors. *)
Lemma getLiteralPath_errors : forall n allow m,
  getLiteralPath n allow = Throw m -> m = unknown_argument_type \/ m = type_error.
Proof.
  fix IH 1. intros n allow m H.
  destruct n as [s|es|props|name init|name|name|]; simpl in H.
  - discriminate.
  - destruct (element_texts es) eqn:E; [discriminate|].
    injection H as <-. right. now apply (element_texts_error es).
  - destruct allow; simpl in H; [|injection H as <-; now left].
    induction props as [|p props IHp]; [injection H as <-; now right|].
    destruct (is_name "path" p); [exact (IH p false m H)|exact (IHp H)].
  - exact (IH init false m H).
  - injection H as <-; now left.
  - injection H as <-; now left.
  - injection H as <-; now left.
Qed.

End PathFacts.

Module JoinFacts2.
Import Axios Spec JoinFacts.

Lemma str_app_empty_r : forall s, (s ++ "")%string = s.
Proof. induction s as [|c s IH]; simpl; [reflexivity|now rewrite IH]. Qed.

Lemma last_char_String : forall c rest,
  last_char (String c rest) = match last_char rest with Some x => Some x | None => Some c end.
Proof.
  intros c [|c' r']; [reflexivity|].
  destruct (last_char_some (String c' r')) as [x Hx]; [discriminate|].
  rewrite last_char_cons by discriminate. now rewrite Hx.
Qed.

Lemma collapse_id : forall s prev, no_double_slash s = true ->
  (prev = true -> head_is_slash s = false) -> collapse_slashes prev s = s.
Proof.
  induction s as [|c rest IH]; intros prev Hnd Hp; [reflexivity|].
  simpl. destruct (Ascii.eqb c slash) eqn:Ec.
  - destruct prev.
    + specialize (Hp eq_refl). simpl in Hp. rewrite Ec in Hp. discriminate.
    + f_equal. apply IH; [exact (no_double_tail c rest Hnd)|].
      intros _. destruct rest as [|b r]; [reflexivity|].
      simpl in Hnd |- *. rewrite Ec in Hnd. simpl in Hnd.
      destruct (Ascii.eqb b slash); [discriminate|reflexivity].
  - f_equal. apply IH; [exact (no_double_tail c rest Hnd)|discriminate].
Qed.

Lemma collapse_app_slash : forall s prev,
  collapse_slashes prev (s ++ String slash EmptyString) =
  (collapse_slashes prev s ++
   (if match last_char s with Some c => Ascii.eqb c slash | None => prev end
    then EmptyString else String slash EmptyString))%string.
Proof.
  induction s as [|c rest IH]; intros prev.
  - destruct prev; reflexivity.
  - cbn [String.append]. rewrite last_char_String. simpl collapse_slashes.
    destruct (Ascii.eqb c slash) eqn:Ec; [destruct prev|].
    + rewrite IH. destruct (last_char rest); [reflexivity|]. rewrite Ec. reflexivity.
    + cbn [String.append]. rewrite IH. destruct (last_char rest); [reflexivity|]. rewrite Ec. reflexivity.
    + cbn [String.append]. rewrite IH. destruct (last_char rest); [reflexivity|]. rewrite Ec. reflexivity.
Qed.

Lemma drop_last_app_last : forall s c, last_char s = Some c ->
  (drop_last s ++ String c EmptyString)%string = s.
Proof.
  induction s as [|c0 rest IH]; intros c H; [discriminate|].
  destruct (string_dec rest EmptyString) as [->|Hne].
  - simpl in H. injection H as ->. reflexivity.
  - rewrite last_char_cons in H by exact Hne. rewrite drop_last_cons by exact Hne.
    cbn [String.append]. now rewrite (IH c H).
Qed.

Lemma joinPaths_one : forall s, head_is_slash s = true ->
  joinPaths [s] = trim_trailing_slash (collapse_slashes false (s ++ String slash EmptyString)).
Proof.
  intros [|c r] H; [discriminate|]. simpl in H. apply Ascii.eqb_eq in H. subst c.
  reflexivity.
Qed.

End JoinFacts2.

Module TemplateFacts.
Import Axios Spec JoinFacts JoinFacts2 Shapes.

Lemma str_app_assoc : forall a b c, ((a ++ b) ++ c)%string = (a ++ (b ++ c))%string.
Proof. induction a as [|x a IH]; intros b c; simpl; [reflexivity|now rewrite IH]. Qed.

Lemma sbc_skip : forall a cur s, no_char colon a = true ->
  split_before_colon cur (a ++ s) = split_before_colon (cur ++ a) s.
Proof.
  induction a as [|c a IH]; intros cur s H.
  - simpl. now rewrite str_app_empty_r.
  - simpl in H. apply andb_true_iff in H as [Hc Ha]. apply negb_true_iff in Hc.
    cbn [String.append split_before_colon]. rewrite Hc. simpl andb. cbv iota.
    rewrite IH by exact Ha. rewrite str_app_assoc. reflexivity.
Qed.

Lemma sbc_colon : forall cur s, cur <> EmptyString ->
  split_before_colon cur (String colon s) = cur :: split_before_colon (String colon EmptyString) s.
Proof.
  intros cur s H. cbn [split_before_colon].
  replace (Ascii.eqb colon colon) with true by reflexivity.
  replace (String.eqb cur "") with false by (symmetry; now apply String.eqb_neq).
  reflexivity.
Qed.

Lemma sbc_pieces : forall ps cur, cur <> EmptyString ->
  Forall (fun p => no_char colon p = true) ps ->
  split_before_colon cur (colon_pieces ps) = cur :: map (String colon) ps.
Proof.
  induction ps as [|p ps IH]; intros cur Hcur Hps; [reflexivity|].
  inversion Hps as [|? ? Hp Hrest]; subst.
  cbn [colon_pieces]. rewrite sbc_colon by exact Hcur.
  rewrite sbc_skip by exact Hp. cbn [String.append].
  rewrite IH; [reflexivity|discriminate|exact Hrest].
Qed.

Lemma take_line_id : forall l, no_line_terminator l = true -> take_line l = l.
Proof.
  induction l as [|c l IH]; intros H; [reflexivity|].
  simpl in H. apply andb_true_iff in H as [Hc Hl]. apply negb_true_iff in Hc.
  simpl. rewrite Hc. now rewrite IH.
Qed.

Lemma split_slash_skip : forall n rest, no_char slash n = true ->
  split_slash (n ++ rest) = let (e, l) := split_slash rest in ((n ++ e)%string, l).
Proof.
  induction n as [|c n IH]; intros rest H.
  - simpl. destruct (split_slash rest); reflexivity.
  - simpl in H. apply andb_true_iff in H as [Hc Hn]. apply negb_true_iff in Hc.
    cbn [String.append split_slash]. rewrite IH by exact Hn. rewrite Hc.
    destruct (split_slash rest); reflexivity.
Qed.

Lemma split_slash_lit : forall l, l <> EmptyString -> no_line_terminator l = true ->
  split_slash (String slash l) = (EmptyString, Some l).
Proof.
  intros [|c l] Hne Hl; [contradiction|].
  simpl in Hl. apply andb_true_iff in Hl as [Hc Hl']. apply negb_true_iff in Hc.
  cbn [split_slash]. replace (Ascii.eqb slash slash) with true by reflexivity.
  rewrite Hc. rewrite take_line_id; [reflexivity|]. simpl. rewrite Hc. exact Hl'.
Qed.

Lemma split_slash_none : forall n, no_char slash n = true -> split_slash n = (n, None).
Proof.
  intros n H. rewrite <- (str_app_empty_r n) at 1.
  rewrite split_slash_skip by exact H. simpl. now rewrite str_app_empty_r.
Qed.

Lemma no_char_app : forall c a b, no_char c (a ++ b) = no_char c a && no_char c b.
Proof.
  induction a as [|x a IH]; intros b; [reflexivity|]. simpl. rewrite IH. apply andb_assoc.
Qed.

Lemma mapi_from_app : forall {A B} (f : nat -> A -> B) xs y i,
  mapi_from i f (xs ++ [y]) = mapi_from i f xs ++ [f (i + length xs) y].
Proof.
  induction xs as [|x xs IH]; intros y i; simpl; [now rewrite Nat.add_0_r|].
  rewrite IH. replace (S i + length xs) with (i + S (length xs)) by lia. reflexivity.
Qed.

Lemma span_mid : forall N i nl, wf_mid nl = true -> Nat.ltb i (N - 1) = true ->
  template_span N i (String colon (mid_piece nl))
  = (Identifier (fst nl), TemplateMiddle ("/" ++ snd nl)).
Proof.
  intros N i [n l] H Hi. unfold wf_mid in H; simpl in H.
  apply andb_true_iff in H as [H Hl0]. apply andb_true_iff in H as [H Hlt].
  apply andb_true_iff in H as [H _]. apply andb_true_iff in H as [Hnc Hns].
  apply negb_true_iff in Hl0. apply String.eqb_neq in Hl0.
  unfold template_span, mid_piece; simpl fst; simpl snd.
  change (String colon (n ++ String slash l)) with ((String colon n) ++ String slash l)%string.
  rewrite split_slash_skip by (simpl; exact Hns).
  rewrite split_slash_lit by assumption.
  rewrite Hi. simpl. now rewrite str_app_empty_r.
Qed.

Lemma span_last : forall N i nl, wf_last nl = true -> Nat.ltb i (N - 1) = false ->
  template_span N i (String colon (last_piece nl))
  = (Identifier (fst nl),
     TemplateTail (match snd nl with Some l => "/" ++ l | None => "" end)).
Proof.
  intros N i [n [l|]] H Hi; unfold wf_last in H; simpl in H;
    apply andb_true_iff in H as [H Hl]; apply andb_true_iff in H as [Hnc Hns];
    unfold template_span, last_piece; simpl fst; simpl snd.
  - apply andb_true_iff in Hl as [Hl Hl0]. apply andb_true_iff in Hl as [_ Hlt].
    apply negb_true_iff in Hl0. apply String.eqb_neq in Hl0.
    change (String colon (n ++ String slash l)) with ((String colon n) ++ String slash l)%string.
    rewrite split_slash_skip by (simpl; exact Hns).
    rewrite split_slash_lit by assumption.
    rewrite Hi. simpl. rewrite str_app_empty_r.
    replace (String.eqb l "") with false by (symmetry; now apply String.eqb_neq).
    reflexivity.
  - rewrite split_slash_none by (simpl; exact Hns). rewrite Hi. reflexivity.
Qed.

Lemma spans_mid : forall mids N i, Forall (fun nl => wf_mid nl = true) mids ->
  i + length mids <= N - 1 ->
  mapi_from i (template_span N) (map (String colon) (map mid_piece mids))
  = map (fun nl => (Identifier (fst nl), TemplateMiddle ("/" ++ snd nl))) mids.
Proof.
  induction mids as [|nl mids IH]; intros N i Hf Hi; [reflexivity|].
  inversion Hf as [|? ? Hnl Hrest]; subst. simpl in Hi |- *.
  rewrite span_mid by (auto; apply Nat.ltb_lt; lia).
  rewrite IH by (auto; lia). reflexivity.
Qed.

End TemplateFacts.

Module NestjsFacts2.
Import Nestjs Spec NestjsFacts Shapes.

Lemma pairs_fst : forall name ps,
  map fst (pairs name ps) = filter (has_decorator name) ps.
Proof.
  intros name ps; induction ps as [|p ps IH]; [reflexivity|].
  simpl. unfold has_decorator at 1. destruct (getDecorator name p); simpl; now rewrite IH.
Qed.

Lemma named_literal : forall d, js_falsy_str (literal_property d) = false ->
  exists s, literal_property d = Some s.
Proof. intros d H. destruct (literal_property d) as [s|]; [eauto|discriminate]. Qed.

Lemma collect_named : forall prs acc,
  Forall (fun pd => js_falsy_str (literal_property (snd pd)) = false) prs ->
  exists l, collect prs acc = match acc ++ l with [] => None | l' => Some (Partials l') end /\
    map parameter l = map fst prs /\
    Forall (fun pp => exists d, In (parameter pp, d) prs /\
                                literal_property d = Some (property pp)) l.
Proof.
  induction prs as [|[p d] prs IH]; intros acc Hf.
  - exists []. rewrite app_nil_r. split; [|split; [reflexivity|constructor]].
    destruct acc; reflexivity.
  - inversion Hf as [|? ? Hd Hrest]; subst. simpl in Hd.
    destruct (named_literal d Hd) as [s Hs].
    destruct (IH (acc ++ [mkPartial s p]) Hrest) as [l [Hc [Hm Hl]]].
    exists (mkPartial s p :: l). split; [|split].
    + simpl. rewrite Hd, Hs. rewrite Hc. now rewrite <- app_assoc.
    + simpl. now rewrite Hm.
    + constructor; [exists d; simpl; auto|].
      eapply Forall_impl; [|exact Hl]. intros pp [d' [Hin Hl']]. exists d'. simpl; auto.
Qed.

Lemma collect_params_named : forall prs acc,
  Forall (fun pd => js_falsy_str (literal_property (snd pd)) = false) prs ->
  exists l, collect_params prs acc = Ok (match acc ++ l with [] => None | l' => Some l' end) /\
    map parameter l = map fst prs /\
    Forall (fun pp => exists d, In (parameter pp, d) prs /\
                                literal_property d = Some (property pp)) l.
Proof.
  induction prs as [|[p d] prs IH]; intros acc Hf.
  - exists []. rewrite app_nil_r. split; [|split; [reflexivity|constructor]].
    destruct acc; reflexivity.
  - inversion Hf as [|? ? Hd Hrest]; subst. simpl in Hd.
    destruct (named_literal d Hd) as [s Hs].
    destruct (IH (acc ++ [mkPartial s p]) Hrest) as [l [Hc [Hm Hl]]].
    exists (mkPartial s p :: l). split; [|split].
    + simpl. rewrite Hd, Hs. rewrite Hc. now rewrite <- app_assoc.
    + simpl. now rewrite Hm.
    + constructor; [exists d; simpl; auto|].
      eapply Forall_impl; [|exact Hl]. intros pp [d' [Hin Hl']]. exists d'. simpl; auto.
Qed.

Lemma partials_decorated : forall name ps l,
  Forall (fun pp => exists d, In (parameter pp, d) (pairs name ps) /\
                              literal_property d = Some (property pp)) l ->
  Forall (fun pp => option_map literal_property (getDecorator name (parameter pp))
                    = Some (Some (property pp))) l.
Proof.
  intros name ps l H. eapply Forall_impl; [|exact H].
  intros pp [d [Hin Hl]]. apply pairs_In in Hin as [_ Hd]. rewrite Hd. cbn [option_map]. now rewrite Hl.
Qed.

Lemma getParams_throws_unnamed : forall ps,
  (exists msg, getParams ps = Throw msg) <->
  exists p, In p ps /\ unnamed_binding "Param" p = true.
Proof.
  intros ps.
  assert (Hpairs : (exists msg, getParams ps = Throw msg) <->
          exists pd, In pd (pairs "Param" ps) /\
                     js_falsy_str (literal_property (snd pd)) = true).
  { unfold getParams. destruct (pairs "Param" ps) as [|pd prs] eqn:E.
    - split; [intros [msg H]; discriminate|intros [pd [[] _]]].
    - apply collect_params_throws. }
  rewrite Hpairs. split.
  - intros [[p d] [Hin Hd]]. apply pairs_In in Hin as [Hin Hdeco].
    exists p; split; [exact Hin|]. unfold unnamed_binding. now rewrite Hdeco.
  - intros [p [Hin Hp]]. unfold unnamed_binding in Hp.
    destruct (getDecorator "Param" p) as [d|] eqn:Ed; [|discriminate].
    exists (p, d); split; [apply pairs_In; auto|exact Hp].
Qed.

End NestjsFacts2.

Module RequestFacts.
Import Nestjs NestjsRequests Shapes.

Lemma getVerb_lower : forall m v, getVerb m = Some v ->
  In (to_lower (rd_name v)) ["get"; "post"; "put"; "patch"; "delete"].
Proof.
  intros m v H. unfold getVerb in H. apply find_some in H as [_ H].
  apply existsb_exists in H as [n [Hin Hn]]. apply String.eqb_eq in Hn. rewrite Hn.
  simpl in Hin. repeat destruct Hin as [<-|Hin]; try contradiction; vm_compute; auto 10.
Qed.

Lemma controllers_of_file_names : forall base cls cs,
  controllers_of_file base cls = Ok cs ->
  map ctl_name cs = map (fun _ => before_dot base) (filter is_controller cls).
Proof.
  intros base cls; induction cls as [|c cls IH]; intros cs H; simpl in H.
  - injection H as <-. reflexivity.
  - unfold is_controller at 1. simpl.
    destruct (find _ (ci_decorators c)) as [deco|].
    + destruct (NestjsPath.getBaseUrl (rd_args deco)); [|discriminate].
      destruct (controllers_of_file base cls) as [cs'|]; [|discriminate].
      injection H as <-. simpl. f_equal. now apply IH.
    + now apply IH.
Qed.

Lemma before_dot_no_dot : forall s, no_char dot (before_dot s) = true.
Proof.
  induction s as [|c s IH]; [reflexivity|]. simpl.
  destruct (Ascii.eqb c dot) eqn:E; [reflexivity|]. simpl. rewrite E. exact IH.
Qed.

Lemma before_dot_prefix : forall s, exists rest,
  s = (before_dot s ++ rest)%string /\ (rest = EmptyString \/ exists r, rest = String dot r).
Proof.
  induction s as [|c s IH]; [exists EmptyString; auto|].
  simpl. destruct (Ascii.eqb c dot) eqn:E.
  - apply Ascii.eqb_eq in E. subst. exists (String dot s). split; [reflexivity|eauto].
  - destruct IH as [rest [Hs Hr]]. exists rest. split; [simpl; now rewrite <- Hs|exact Hr].
Qed.

End RequestFacts.

Module WriterFacts.
Import Axios OpenAPI OpenAPIWriter WriterShapes Spec JoinFacts OpenAPIFacts.

(** ** URLs *)

Lemma word_not_slash : forall c, is_word_char c = true -> Ascii.eqb c slash = false.
Proof.
  intros c H. destruct (Ascii.eqb c slash) eqn:E; [|reflexivity].
  apply Ascii.eqb_eq in E. subst. discriminate H.
Qed.

Lemma nd_cons_step : forall c rest X,
  no_double_slash (String c rest) = true -> no_double_slash X = true ->
  (head_is_slash X = true -> head_is_slash rest = true) ->
  no_double_slash (String c X) = true.
Proof.
  intros c rest X H1 H2 H3. destruct (Ascii.eqb c slash) eqn:E.
  - rewrite no_double_cons_slash; [exact H2|].
    destruct (head_is_slash X) eqn:HX; [|reflexivity].
    specialize (H3 eq_refl). destruct rest as [|c' r]; [discriminate|].
    simpl in H1, H3. rewrite E, H3 in H1. discriminate.
  - rewrite no_double_cons_other by exact E. exact H2.
Qed.

Lemma braces_no_double : forall s inside,
  no_double_slash s = true ->
  no_double_slash (braces_of_placeholders inside s) = true /\
  (head_is_slash (braces_of_placeholders inside s) = true -> head_is_slash s = true).
Proof.
  induction s as [|c rest IH]; intros inside Hnd.
  - destruct inside; cbn; split; try reflexivity; intros H; discriminate H.
  - assert (Hr : no_double_slash rest = true) by (eapply no_double_tail; eauto).
    destruct (IH true Hr) as [T1 T2]. destruct (IH false Hr) as [F1 F2].
    cbn [braces_of_placeholders].
    destruct (inside && is_word_char c) eqn:W.
    + apply andb_prop in W as [_ W].
      split; [eapply nd_cons_step; eauto|].
      simpl. rewrite (word_not_slash c W). intros H; discriminate H.
    + destruct (Ascii.eqb c colon &&
                match rest with String c' _ => is_word_char c' | EmptyString => false end).
      * destruct inside; cbn [append].
        -- rewrite !no_double_cons_other by reflexivity.
           split; [exact T1|]. intros H; discriminate H.
        -- rewrite no_double_cons_other by reflexivity.
           split; [exact T1|]. intros H; discriminate H.
      * destruct inside; cbn [append].
        -- rewrite no_double_cons_other by reflexivity.
           split; [eapply nd_cons_step; eauto|]. intros H; discriminate H.
        -- split; [eapply nd_cons_step; eauto|]. simpl. auto.
Qed.

Lemma starts_head : forall s, starts_with_slash s = head_is_slash s.
Proof. intros [|c s]; reflexivity. Qed.

Lemma resolveUrl_shape_aux : forall u b,
  head_is_slash (resolveUrl u b) = true /\ no_double_slash (resolveUrl u b) = true.
Proof.
  intros u b. unfold resolveUrl.
  destruct (joinPaths_shape [b; u]) as [Hs [Hnd _]].
  set (J := joinPaths [b; u]) in *.
  destruct (braces_no_double J false Hnd) as [H1 _].
  split; [|exact H1].
  rewrite starts_head in Hs.
  destruct J as [|c J']; [discriminate|].
  simpl in Hs. apply Ascii.eqb_eq in Hs. subst c. reflexivity.
Qed.

Lemma no_char_collapse : forall c s prev,
  Shapes.no_char c s = true -> Shapes.no_char c (collapse_slashes prev s) = true.
Proof.
  intros c s prev. revert prev.
  induction s as [|c' rest IH]; intros prev H; [reflexivity|].
  simpl in H. apply andb_prop in H as [H1 H2].
  simpl. destruct (Ascii.eqb c' slash), prev; simpl; rewrite ?H1; simpl; auto.
Qed.

Lemma no_char_drop_last : forall c s,
  Shapes.no_char c s = true -> Shapes.no_char c (drop_last s) = true.
Proof.
  intros c s; induction s as [|c' rest IH]; intros H; [reflexivity|].
  simpl in H. apply andb_prop in H as [H1 H2].
  destruct rest as [|c'' r]; [reflexivity|].
  change (Shapes.no_char c (String c' (drop_last (String c'' r))) = true).
  simpl. rewrite H1. apply IH, H2.
Qed.

Lemma no_char_trim : forall c s,
  Shapes.no_char c s = true -> Shapes.no_char c (trim_trailing_slash s) = true.
Proof.
  intros c s H. destruct (trim_cases s) as [->|[_ ->]]; [exact H|].
  now apply no_char_drop_last.
Qed.

Lemma no_char_join : forall c l, Ascii.eqb slash c = false ->
  forallb (Shapes.no_char c) l = true -> Shapes.no_char c (js_join "/" l) = true.
Proof.
  intros c l Hc. induction l as [|x [|y l] IH]; intros H; [reflexivity| |].
  - simpl in H. now rewrite andb_true_r in H.
  - simpl in H. apply andb_prop in H as [H1 H2].
    change (js_join "/" (x :: y :: l)) with (x ++ "/" ++ js_join "/" (y :: l))%string.
    rewrite !TemplateFacts.no_char_app, H1, IH by exact H2.
    change (Shapes.no_char c "/") with (negb (Ascii.eqb slash c) && true).
    rewrite Hc. reflexivity.
Qed.

Lemma no_char_joinPaths : forall c args, Ascii.eqb slash c = false ->
  forallb (Shapes.no_char c) args = true -> Shapes.no_char c (joinPaths args) = true.
Proof.
  intros c args Hc H. unfold joinPaths. apply no_char_trim.
  apply no_char_collapse. apply no_char_join; [exact Hc|].
  rewrite !forallb_app, H. reflexivity.
Qed.

Lemma unbrace_braces : forall s inside,
  Shapes.no_char "{"%char s = true -> Shapes.no_char "}"%char s = true ->
  unbrace (braces_of_placeholders inside s) = s.
Proof.
  induction s as [|c rest IH]; intros inside H1 H2.
  - destruct inside; reflexivity.
  - simpl in H1, H2. apply andb_prop in H1 as [E1 H1]. apply andb_prop in H2 as [E2 H2].
    apply negb_true_iff in E1, E2.
    cbn [braces_of_placeholders].
    destruct (inside && is_word_char c).
    + simpl. rewrite E1, E2, IH by assumption. reflexivity.
    + destruct (Ascii.eqb c colon &&
                match rest with String c' _ => is_word_char c' | EmptyString => false end)
        eqn:O.
      * apply andb_prop in O as [O _]. apply Ascii.eqb_eq in O. subst c.
        destruct inside; simpl; rewrite IH by assumption; reflexivity.
      * destruct inside; simpl; rewrite E1, E2, IH by assumption; reflexivity.
Qed.

(** ** Components *)

Lemma obj_get_set : forall k v fs n,
  obj_get n (obj_set k v fs) = if String.eqb n k then Some v else obj_get n fs.
Proof.
  intros k v fs n. induction fs as [|[k' v'] fs IH]; simpl.
  - destruct (String.eqb n k); reflexivity.
  - destruct (String.eqb k k') eqn:E; simpl.
    + apply String.eqb_eq in E. subst k'.
      destruct (String.eqb n k); reflexivity.
    + rewrite IH. destruct (String.eqb n k) eqn:E1, (String.eqb n k') eqn:E2; auto.
      apply String.eqb_eq in E1, E2. subst. rewrite String.eqb_refl in E. discriminate.
Qed.

Lemma reg_get_set : forall k v m n,
  reg_get n (reg_set k v m) = if String.eqb n k then Some v else reg_get n m.
Proof.
  intros k v m n. induction m as [|[k' v'] m IH]; simpl.
  - destruct (String.eqb n k); reflexivity.
  - destruct (String.eqb k k') eqn:E; simpl.
    + apply String.eqb_eq in E. subst k'.
      destruct (String.eqb n k); reflexivity.
    + rewrite IH. destruct (String.eqb n k) eqn:E1, (String.eqb n k') eqn:E2; auto.
      apply String.eqb_eq in E1, E2. subst. rewrite String.eqb_refl in E. discriminate.
Qed.

Lemma js_assign_get : forall k v fs n,
  obj_get n (js_assign k v fs) =
  if String.eqb k "__proto__" then obj_get n fs
  else if String.eqb n k then Some v else obj_get n fs.
Proof.
  intros. unfold js_assign. destruct (String.eqb k "__proto__"); [reflexivity|].
  apply obj_get_set.
Qed.

Lemma find_app : forall {A} (f : A -> bool) l1 l2,
  find f (l1 ++ l2) = match find f l1 with Some x => Some x | None => find f l2 end.
Proof.
  intros A f l1 l2. induction l1 as [|x l1 IH]; [reflexivity|].
  simpl. destruct (f x); [reflexivity|exact IH].
Qed.

Lemma component_schema_error : forall d e, component_schema d = Throw e -> e = type_error.
Proof.
  intros [en|i es|c ex|n] e H; cbn [component_schema] in H; try discriminate.
  - unfold resolveInterfaceComponent in H.
    pose proof (resolveObjectSchema_result (intf_doc i) (intf_props i) (intf_scope i)) as R.
    destruct (resolveObjectSchema (intf_doc i) (intf_props i) (intf_scope i)) as [self|m];
      [discriminate|]. injection H as <-. exact (proj1 R).
  - unfold resolveClassComponent in H.
    pose proof (resolveObjectSchema_result (cls_doc c) (cls_props c) (cls_scope c)) as R.
    destruct (resolveObjectSchema (cls_doc c) (cls_props c) (cls_scope c)) as [self|m];
      [discriminate|]. injection H as <-. exact (proj1 R).
Qed.

Lemma component_some : forall d s, component_schema d = Ok (Some s) -> is_component d = true.
Proof. intros [en|i es|c ex|n] s H; [reflexivity|reflexivity|reflexivity|discriminate]. Qed.

Lemma component_none : forall d, component_schema d = Ok None -> is_component d = false.
Proof.
  intros [en|i es|c ex|n] H; cbn [component_schema] in H; [discriminate| | |reflexivity].
  - destruct (resolveInterfaceComponent i); discriminate.
  - destruct (resolveClassComponent c); discriminate.
Qed.

Lemma addComponent_ok : forall w d w',
  addComponent w d = Ok w' ->
  (exists o, component_schema d = Ok o) /\
  forall n,
  reg_get n (types w') =
    (if String.eqb (decl_name d) n && is_component d then Some d else reg_get n (types w)) /\
  obj_get n (schemas w') =
    (if String.eqb n "__proto__" then obj_get n (schemas w)
     else if String.eqb (decl_name d) n && is_component d then component_value d
     else obj_get n (schemas w)).
Proof.
  intros w d w' H. unfold addComponent in H. unfold component_value.
  destruct (component_schema d) as [[s|]|e] eqn:Ecs; [| |discriminate];
    injection H as <-; (split; [eauto|intros n]).
  - rewrite (component_some d s Ecs), andb_true_r. simpl schemas; simpl types.
    rewrite reg_get_set, js_assign_get, (String.eqb_sym n). split; [reflexivity|].
    destruct (String.eqb (decl_name d) n) eqn:E1.
    + apply String.eqb_eq in E1. subst n.
      destruct (String.eqb (decl_name d) "__proto__"); reflexivity.
    + destruct (String.eqb (decl_name d) "__proto__"), (String.eqb n "__proto__");
        reflexivity.
  - rewrite (component_none d Ecs), andb_false_r. split; [reflexivity|].
    destruct (String.eqb n "__proto__"); reflexivity.
Qed.

Lemma addComponents_ok : forall ds w w',
  addComponents ds w = Ok w' ->
  (forall d, In d ds -> exists o, component_schema d = Ok o) /\
  forall n,
  reg_get n (types w') =
    match last_component n ds with Some d => Some d | None => reg_get n (types w) end /\
  obj_get n (schemas w') =
    (if String.eqb n "__proto__" then obj_get n (schemas w)
     else match last_component n ds with
          | Some d => component_value d
          | None => obj_get n (schemas w)
          end).
Proof.
  induction ds as [|d ds IH]; intros w w' H.
  - injection H as <-. split; [intros d []|]. intros n.
    split; [reflexivity|]. destruct (String.eqb n "__proto__"); reflexivity.
  - cbn [addComponents] in H. destruct (addComponent w d) as [w1|e] eqn:E1; [|discriminate].
    destruct (addComponent_ok w d w1 E1) as [Ho Hg].
    destruct (IH w1 w' H) as [Hall Hget].
    split; [intros d' [<-|Hin]; [exact Ho|exact (Hall d' Hin)]|].
    intros n. destruct (Hget n) as [A B]. rewrite A, B.
    destruct (Hg n) as [C D].
    unfold last_component. simpl rev. rewrite find_app.
    fold (last_component n ds).
    destruct (last_component n ds) as [x|].
    + split; [reflexivity|]. rewrite D.
      destruct (String.eqb n "__proto__"); reflexivity.
    + simpl find. rewrite C, D.
      destruct (String.eqb (decl_name d) n && is_component d);
        (split; [reflexivity|]); destruct (String.eqb n "__proto__"); reflexivity.
Qed.

Lemma addComponents_throw : forall ds w e,
  addComponents ds w = Throw e -> exists d, In d ds /\ component_schema d = Throw e.
Proof.
  induction ds as [|d ds IH]; intros w e H; [discriminate|].
  cbn [addComponents] in H. destruct (addComponent w d) as [w1|e1] eqn:E1.
  - destruct (IH w1 e H) as [d' [Hin Hd]]. exists d'. split; [right; exact Hin|exact Hd].
  - injection H as <-. exists d. split; [left; reflexivity|].
    unfold addComponent in E1. destruct (component_schema d) as [[s|]|e]; congruence.
Qed.

Lemma proto_not_slash : forall u, head_is_slash u = true ->
  String.eqb u "__proto__" = false.
Proof.
  intros [|c u] H; [discriminate|]. simpl in H. apply Ascii.eqb_eq in H. subst c.
  reflexivity.
Qed.

Lemma addComponents_keys : forall ds w w',
  addComponents ds w = Ok w' ->
  NoDup (map fst (schemas w)) ->
  existsb (String.eqb "__proto__") (map fst (schemas w)) = false ->
  NoDup (map fst (schemas w')) /\
  existsb (String.eqb "__proto__") (map fst (schemas w')) = false.
Proof.
  induction ds as [|d ds IH]; intros w w' H H1 H2.
  - injection H as <-. now split.
  - cbn [addComponents] in H. destruct (addComponent w d) as [w1|e] eqn:E1; [|discriminate].
    unfold addComponent in E1.
    destruct (component_schema d) as [[s|]|e]; [| |discriminate]; injection E1 as <-;
      [|exact (IH w w' H H1 H2)].
    apply (IH _ w' H).
    + cbn [schemas]. unfold js_assign.
      destruct (String.eqb (decl_name d) "__proto__"); [exact H1|].
      now apply obj_set_nodup.
    + cbn [schemas]. unfold js_assign.
      destruct (String.eqb (decl_name d) "__proto__") eqn:Ep; [exact H2|].
      apply not_true_iff_false. rewrite existsb_exists.
      intros [k [Hk Ek]]. apply String.eqb_eq in Ek. subst k.
      apply obj_set_keys in Hk as [Hk|Hk].
      * rewrite Hk, String.eqb_refl in Ep. discriminate.
      * apply not_true_iff_false in H2. apply H2, existsb_exists.
        exists "__proto__"%string. split; [exact Hk|apply String.eqb_refl].
Qed.

(** ** Parameters *)

Lemma node_schema_error : forall scope tn e, node_schema scope tn = Throw e -> e = type_error.
Proof.
  intros scope tn e H. pose proof (node_schema_result scope tn) as R.
  rewrite H in R. exact (proj1 R).
Qed.

Lemma partial_parameters_error : forall info t docs l e,
  partial_parameters info t docs l = Throw e -> e = type_error.
Proof.
  intros info t docs l e. induction l as [|pp l IH]; simpl; [discriminate|].
  destruct (node_schema _ _) eqn:N.
  - destruct (partial_parameters info t docs l); [discriminate|]. intros H.
    injection H as <-. now apply IH.
  - intros H. injection H as <-. eapply node_schema_error; eauto.
Qed.

Lemma partial_parameters_ok : forall info t docs l objs,
  partial_parameters info t docs l = Ok objs ->
  map param_summary objs = map (expected_summary info t) l.
Proof.
  intros info t docs l. induction l as [|pp l IH]; intros objs H.
  - simpl in H. injection H as <-. reflexivity.
  - simpl in H. destruct (node_schema _ _); [|discriminate].
    destruct (partial_parameters info t docs l) as [r|]; [|discriminate].
    injection H as <-. simpl. rewrite (IH r eq_refl). reflexivity.
Qed.

Lemma partial_parameters_throws : forall info t docs l,
  (exists e, partial_parameters info t docs l = Throw e) <->
  exists pp, In pp l /\ annotation_ok (pi_type (info (Nestjs.parameter pp))) = false.
Proof.
  intros info t docs l. induction l as [|pp l IH]; simpl.
  - split; [intros [e H]; discriminate|intros [pp [[] _]]].
  - pose proof (node_schema_result (pi_scope (info (Nestjs.parameter pp)))
                  (pi_type (info (Nestjs.parameter pp)))) as R.
    destruct (node_schema _ _) as [sc|e1].
    + destruct (partial_parameters info t docs l) as [r|e0] eqn:Er.
      * split; [intros [e H]; discriminate|].
        intros [pp' [[<-|Hin] Hn]]; [congruence|].
        destruct (proj2 IH (ex_intro _ pp' (conj Hin Hn))) as [e He]. discriminate.
      * split; [|eauto]. intros _.
        destruct (proj1 IH (ex_intro _ e0 eq_refl)) as [pp' [Hin Hn]]. eauto.
    + split; [intros _; exists pp; split; [left; reflexivity|exact (proj2 R)]|eauto].
Qed.


(** ** Inherited properties *)

Lemma chain_loop_mono : forall rec1 rec2 tys es c,
  (forall s c, rec1 s = (c, true) -> rec2 s = (c, true)) ->
  chain_loop rec1 tys es = (c, true) -> chain_loop rec2 tys es = (c, true).
Proof.
  intros rec1 rec2 tys es. induction es as [|[n|] es IH]; intros c Hr H; simpl in *; auto.
  destruct (String.eqb n ""); auto.
  destruct (reg_get n tys) as [s|]; auto.
  destruct (is_class_or_interface s); auto.
  destruct (rec1 s) as [c1 [|]] eqn:E1; [|discriminate].
  destruct (chain_loop rec1 tys es) as [r1 [|]] eqn:E2; [|discriminate].
  rewrite (Hr _ _ E1), (IH _ Hr eq_refl). exact H.
Qed.

Lemma inherited_loop_mono : forall rec1 rec2 l ps,
  (forall s c, rec1 s = (c, true) -> rec2 s = (c, true)) ->
  inherited_loop rec1 l = (ps, true) -> inherited_loop rec2 l = (ps, true).
Proof.
  intros rec1 rec2 l. induction l as [|s l IH]; intros ps Hr H; simpl in *; auto.
  destruct (rec1 s) as [a [|]] eqn:E1; [|discriminate].
  destruct (inherited_loop rec1 l) as [b [|]] eqn:E2; [|discriminate].
  rewrite (Hr _ _ E1), (IH _ Hr eq_refl). exact H.
Qed.

Lemma props_S : forall f tys d,
  yielded_properties (S f) tys d =
  if is_class_or_interface d then
    let (chain, chain_done) := resolveProtoChain f tys d in
    let (inherited, inherited_done) := inherited_loop (yielded_properties f tys) chain in
    (own_properties d ++ inherited, inherited_done && chain_done)
  else ([], true).
Proof. reflexivity. Qed.

Lemma fuel_mono : forall f tys,
  (forall d c, resolveProtoChain f tys d = (c, true) -> resolveProtoChain (S f) tys d = (c, true)) /\
  (forall d ps, yielded_properties f tys d = (ps, true) ->
                yielded_properties (S f) tys d = (ps, true)).
Proof.
  intros f tys. induction f as [|f [IH1 IH2]].
  - split; intros; discriminate.
  - split.
    + intros d c H. simpl in H |- *. eapply chain_loop_mono; [exact IH1|exact H].
    + intros d ps H. rewrite props_S in H |- *.
      destruct (is_class_or_interface d); [|exact H].
      destruct (resolveProtoChain f tys d) as [ch [|]] eqn:Ec.
      * rewrite (IH1 _ _ Ec).
        destruct (inherited_loop (yielded_properties f tys) ch) as [inh [|]] eqn:Ei;
          [|discriminate].
        rewrite (inherited_loop_mono _ _ _ _ IH2 Ei). exact H.
      * destruct (inherited_loop (yielded_properties f tys) ch) as [inh b].
        rewrite andb_false_r in H. discriminate.
Qed.

Lemma resolveProps_mono : forall f tys d ps,
  resolvePropertiesRecursively f tys d = Some ps ->
  resolvePropertiesRecursively (S f) tys d = Some ps.
Proof.
  intros f tys d ps H. unfold resolvePropertiesRecursively in H |- *.
  destruct (yielded_properties f tys d) as [qs [|]] eqn:E; [|discriminate].
  injection H as <-. rewrite (proj2 (fuel_mono f tys) d qs E). reflexivity.
Qed.

(** ** Serialisation *)

Lemma clean_cons : forall k v fs,
  json_clean (JObject ((k, v) :: fs)) =
  match v with
  | JUndefined => json_clean (JObject fs)
  | _ => match json_clean (JObject fs) with
         | JObject l => JObject ((k, json_clean v) :: l)
         | j => j
         end
  end.
Proof. intros k v fs. destruct v; reflexivity. Qed.

Lemma obj_get_notin : forall k fs, ~ In k (map fst fs) -> obj_get k fs = None.
Proof.
  intros k fs. induction fs as [|[k' v] fs IH]; intros H; [reflexivity|].
  simpl in *. destruct (String.eqb k k') eqn:E.
  - apply String.eqb_eq in E. subst. tauto.
  - apply IH. tauto.
Qed.

Lemma clean_obj : forall fs, exists l,
  json_clean (JObject fs) = JObject l /\
  (NoDup (map fst fs) -> forall k,
     obj_get k l = match obj_get k fs with
                   | Some JUndefined | None => None
                   | Some v => Some (json_clean v)
                   end).
Proof.
  induction fs as [|[k' v] fs [l [E H]]]; [exists []; split; [reflexivity|intros _ k; reflexivity]|].
  rewrite clean_cons, E.
  destruct v.
  1: exists l; split; [reflexivity|].
  2-7: eexists; split; [reflexivity|].
  all: intros Hnd k; inversion Hnd as [|? ? Hnin Hnd']; subst; simpl.
  all: destruct (String.eqb k k') eqn:Ek; [|apply H, Hnd'].
  all: try reflexivity.
  apply String.eqb_eq in Ek. subst. rewrite H by exact Hnd'.
  now rewrite obj_get_notin.
Qed.

(** ** Paths *)

Definition paths_ok (paths : list (string * json)) : Prop :=
  Forall (fun kv => exists it, snd kv = JObject it) paths.

Lemma paths_ok_get : forall paths u v,
  paths_ok paths -> obj_get u paths = Some v -> exists it, v = JObject it.
Proof.
  intros paths u v. induction paths as [|[k w] paths IH]; intros Hok H; [discriminate|].
  inversion Hok as [|? ? [it Hit] Hok']; subst. simpl in H, Hit.
  destruct (String.eqb u k); [injection H as <-; eauto|eauto].
Qed.

Lemma paths_ok_set : forall paths u it,
  paths_ok paths -> paths_ok (obj_set u (JObject it) paths).
Proof.
  intros paths u it. induction paths as [|[k w] paths IH]; intros Hok.
  - repeat constructor. simpl. eauto.
  - inversion Hok as [|? ? Hw Hok']; subst. simpl.
    destruct (String.eqb u k).
    + constructor; [simpl; eauto|exact Hok'].
    + constructor; [exact Hw|apply IH, Hok'].
Qed.

Lemma obj_get_existsb : forall u fs,
  existsb (String.eqb u) (map fst fs) = match obj_get u fs with Some _ => true | None => false end.
Proof.
  intros u fs. induction fs as [|[k v] fs IH]; [reflexivity|].
  simpl. destruct (String.eqb u k); [reflexivity|exact IH].
Qed.

Lemma js_in_slash : forall u paths, head_is_slash u = true ->
  js_in u paths = existsb (String.eqb u) (map fst paths).
Proof.
  intros [|c u] paths H; [discriminate|]. simpl in H. apply Ascii.eqb_eq in H. subst c.
  unfold js_in.
  replace (existsb (String.eqb (String slash u)) object_prototype_names) with false
    by reflexivity.
  apply orb_false_r.
Qed.

Lemma add_operation_lookup : forall u m op paths,
  head_is_slash u = true -> paths_ok paths ->
  paths_ok (add_operation u m op paths) /\
  forall u' m', path_lookup (add_operation u m op paths) u' m' =
    if String.eqb u' u && String.eqb m' m && negb (String.eqb m "__proto__")
    then Some op else path_lookup paths u' m'.
Proof.
  intros u m op paths Hu Hok. unfold add_operation.
  rewrite js_in_slash, obj_get_existsb by exact Hu.
  destruct (obj_get u paths) as [v|] eqn:Eu.
  - destruct (paths_ok_get _ _ _ Hok Eu) as [it ->]. rewrite Eu.
    split; [now apply paths_ok_set|].
    intros u' m'. unfold path_lookup at 1. rewrite obj_get_set.
    destruct (String.eqb u' u) eqn:E1; simpl.
    + apply String.eqb_eq in E1. subst u'. unfold path_lookup. rewrite Eu.
      rewrite js_assign_get.
      destruct (String.eqb m "__proto__"); simpl; [now rewrite andb_false_r|].
      rewrite andb_true_r. destruct (String.eqb m' m); reflexivity.
    + reflexivity.
  - unfold js_assign. rewrite (proto_not_slash u Hu).
    rewrite obj_get_set, String.eqb_refl.
    split; [now apply paths_ok_set, paths_ok_set|].
    intros u' m'. unfold path_lookup at 1. rewrite !obj_get_set.
    destruct (String.eqb u' u) eqn:E1; simpl.
    + apply String.eqb_eq in E1. subst u'. unfold path_lookup. rewrite Eu.
      destruct (String.eqb m "__proto__"); simpl; [now rewrite andb_false_r|].
      rewrite andb_true_r. destruct (String.eqb m' m); reflexivity.
    + reflexivity.
Qed.

Lemma resolveUrl_head : forall u b, head_is_slash (resolveUrl u b) = true.
Proof. intros u b. apply resolveUrl_shape_aux. Qed.

Lemma add_requests_paths : forall info po fuel tys c rs paths paths',
  add_requests info po fuel tys c rs paths = Ok paths' -> paths_ok paths ->
  paths_ok paths' /\
  forall u m, String.eqb m "__proto__" = false ->
    (path_lookup paths' u m <> None <->
     path_lookup paths u m <> None \/
     exists r, In r rs /\ u = resolveUrl (url (oa_req r)) (oc_baseUrl c) /\
               m = NestjsRequests.to_lower (method (oa_req r))).
Proof.
  intros info po fuel tys c rs. induction rs as [|r rs IH]; intros paths paths' H Hok.
  - simpl in H. injection H as <-. split; [exact Hok|].
    intros u m _. split; [auto|intros [H|[r [[] _]]]; exact H].
  - simpl in H. unfold addPath in H.
    destruct (operation info po fuel tys r c) as [op|] eqn:Eop; [|discriminate].
    set (U := resolveUrl (url (oa_req r)) (oc_baseUrl c)) in H.
    set (M := NestjsRequests.to_lower (method (oa_req r))) in H.
    destruct (add_operation_lookup U M op paths (resolveUrl_head _ _) Hok) as [Hok1 L].
    destruct (IH _ _ H Hok1) as [Hok' L'].
    split; [exact Hok'|]. intros u m Hm. rewrite (L' u m Hm), L.
    destruct (String.eqb u U) eqn:E1; destruct (String.eqb m M) eqn:E2; simpl.
    + apply String.eqb_eq in E1, E2. subst u m. rewrite Hm. simpl.
      split; [intros _; right; exists r; split; [left|]; auto|intros _; left; discriminate].
    + split.
      * intros [Hp|[r' [Hin Hr']]]; [now left|right; exists r'; auto].
      * intros [Hp|[r' [[<-|Hin] Hr']]]; [now left| |right; exists r'; auto].
        destruct Hr' as [_ ->]. unfold M in E2. rewrite String.eqb_refl in E2. discriminate.
    + split.
      * intros [Hp|[r' [Hin Hr']]]; [now left|right; exists r'; auto].
      * intros [Hp|[r' [[<-|Hin] Hr']]]; [now left| |right; exists r'; auto].
        destruct Hr' as [-> _]. unfold U in E1. rewrite String.eqb_refl in E1. discriminate.
    + split.
      * intros [Hp|[r' [Hin Hr']]]; [now left|right; exists r'; auto].
      * intros [Hp|[r' [[<-|Hin] Hr']]]; [now left| |right; exists r'; auto].
        destruct Hr' as [-> _]. unfold U in E1. rewrite String.eqb_refl in E1. discriminate.
Qed.

Lemma add_controllers_paths : forall info po fuel tys cs paths tags paths' tags',
  add_controllers info po fuel tys cs paths tags = Ok (paths', tags') -> paths_ok paths ->
  forall u m, String.eqb m "__proto__" = false ->
    (path_lookup paths' u m <> None <->
     path_lookup paths u m <> None \/
     exists c r, In c cs /\ In r (oc_requests c) /\
       u = resolveUrl (url (oa_req r)) (oc_baseUrl c) /\
       m = NestjsRequests.to_lower (method (oa_req r))).
Proof.
  intros info po fuel tys cs. induction cs as [|c cs IH]; intros paths tags paths' tags' H Hok.
  - simpl in H. injection H as <- <-. intros u m _.
    split; [auto|intros [H|[c [r [[] _]]]]; exact H].
  - simpl in H.
    destruct (add_requests info po fuel tys c (oc_requests c) paths) as [p1|] eqn:E;
      [|discriminate].
    destruct (add_requests_paths _ _ _ _ _ _ _ _ E Hok) as [Hok1 L].
    intros u m Hm. rewrite (IH _ _ _ _ H Hok1 u m Hm), (L u m Hm).
    split.
    + intros [[Hp|[r [Hin Hr]]]|[c' [r [Hc Hr]]]]; [now left|right|right].
      * exists c, r. simpl. auto.
      * exists c', r. simpl. tauto.
    + intros [Hp|[c' [r [[<-|Hc] Hr]]]]; [now left; left| |].
      * left. right. exists r. exact Hr.
      * right. exists c', r. tauto.
Qed.

Lemma get_path_lookup : forall paths u m,
  json_get_path [u; m] (JObject paths) = path_lookup paths u m.
Proof.
  intros paths u m. unfold path_lookup. simpl.
  destruct (obj_get u paths) as [[]|]; try reflexivity.
  simpl. destruct (obj_get m fields); reflexivity.
Qed.

(** ** Types *)

Lemma resolve_defined : forall t, ty_nullish t = false ->
  exists fs, resolveTypeSchema t = JObject fs.
Proof.
  intros [u n s sl num nl b bl arr ci en text un inter obj] H. simpl in H. simpl.
  rewrite H.
  destruct (s || sl); [eauto|]. destruct (num || nl); [eauto|].
  destruct (b || bl); [eauto|]. destruct arr; [eauto|].
  destruct (ci || en); [unfold resolveRefType; destruct (String.eqb text "Date"); eauto|].
  destruct un; [eauto|]. destruct inter; [eauto|]. destruct obj; eauto.
Qed.

End WriterFacts.

(* ================================================================== *)
(** * The claims *)

Module Claims.
Import Nestjs Spec Samples NestjsFacts.

(** C10: every binding [getQuery], [getData] and [getParams] extract is
    absent, a Whole parameter, or a non-empty sequence of partials;
    none of them produces an empty partial list. *)
Theorem bindings_never_empty_partials : forall ps,
  wf_binding (getQuery ps) /\ wf_binding (getData ps) /\
  match getParams ps with
  | Ok o => wf_partials o
  | Throw _ => True
  end.
Proof.
  intros ps; unfold getQuery, getData, getParams.
  split; [|split].
  - destruct (pairs "Query" ps); [exact I|apply collect_wf].
  - destruct (pairs "Body" ps); [exact I|apply collect_wf].
  - destruct (pairs "Param" ps); [unfold wf_partials; congruence|apply collect_params_wf].
Qed.

(** C1 (as amended): for the query and the body source, the first
    parameter whose decorator has no non-empty string-literal first
    argument (the code's [!property], which holds for [@Query()],
    [@Query(pipe)] and [@Query('')] alike) is returned as the single
    Whole binding whenever every earlier decorated parameter is named;
    the partials of those earlier parameters are discarded. *)
Theorem whole_binding_preempts_partials : forall before p after,
  (unnamed_binding "Query" p = true /\
   forallb (fun q => negb (unnamed_binding "Query" q)) before = true ->
   getQuery (before ++ p :: after) = Some (Whole p)) /\
  (unnamed_binding "Body" p = true /\
   forallb (fun q => negb (unnamed_binding "Body" q)) before = true ->
   getData (before ++ p :: after) = Some (Whole p)).
Proof.
  intros before p after; split; intros [Hp Hb].
  - destruct (extract_first_whole "Query" before p after Hp Hb) as [prs [E [Hne Hc]]].
    unfold getQuery; rewrite E.
    destruct prs; [contradiction|exact Hc].
  - destruct (extract_first_whole "Body" before p after Hp Hb) as [prs [E [Hne Hc]]].
    unfold getData; rewrite E.
    destruct prs; [contradiction|exact Hc].
Qed.

Lemma whole_binding_preempts_partials_witness :
  getQuery [q_id; q_opts] = Some (Whole q_opts) /\
  getData [b_name; b_dto] = Some (Whole b_dto).
Proof.
  split.
  - apply (proj1 (whole_binding_preempts_partials [q_id] q_opts [])).
    split; reflexivity.
  - apply (proj2 (whole_binding_preempts_partials [b_name] b_dto [])).
    split; reflexivity.
Defined.

(** C1 fails as stated: [@Query('') blank, @Query() opts].  [opts] is the
    first parameter whose decorator has no string-literal argument, but
    the empty literal of [blank] is falsy, so [blank] is the Whole
    binding returned. *)
Lemma empty_literal_query_is_whole :
  option_map literal_property (getDecorator "Query" q_blank) = Some (Some "") /\
  option_map literal_property (getDecorator "Query" q_opts) = Some None /\
  getQuery [q_blank; q_opts] = Some (Whole q_blank) /\
  getQuery [q_blank; q_opts] <> Some (Whole q_opts).
Proof.
  split; [reflexivity|split; [reflexivity|split; [reflexivity|]]].
  vm_compute. intros H; inversion H.
Qed.

(** C7 (as amended): [getParams] throws exactly when some parameter's
    [@Param] decorator has no non-empty string-literal first argument;
    otherwise it returns without throwing. *)
Theorem getParams_throws_iff_unnamed : forall ps,
  (exists msg, getParams ps = Throw msg) <->
  exists p, In p ps /\ unnamed_binding "Param" p = true.
Proof.
  intros ps.
  assert (Hpairs : (exists msg, getParams ps = Throw msg) <->
          exists pd, In pd (pairs "Param" ps) /\
                     js_falsy_str (literal_property (snd pd)) = true).
  { unfold getParams. destruct (pairs "Param" ps) as [|pd prs] eqn:E.
    - split; [intros [msg H]; discriminate|intros [pd [[] _]]].
    - apply collect_params_throws. }
  rewrite Hpairs. split.
  - intros [[p d] [Hin Hd]]. apply pairs_In in Hin as [Hin Hdeco].
    exists p; split; [exact Hin|]. unfold unnamed_binding. now rewrite Hdeco.
  - intros [p [Hin Hp]]. unfold unnamed_binding in Hp.
    destruct (getDecorator "Param" p) as [d|] eqn:Ed; [|discriminate].
    exists (p, d); split; [apply pairs_In; auto|exact Hp].
Qed.

(** C7 fails as stated: [@Param('') id] carries a string-literal field
    name, yet [getParams] throws on it. *)
Lemma empty_param_name_throws :
  option_map literal_property (getDecorator "Param" p_blank) = Some (Some "") /\
  getParams [p_blank] = Throw "`@Param()` without property name is not supported".
Proof. split; reflexivity. Qed.

(** C2 ([joinPaths]): the three examples hold, but a fragment ending in a
    line feed keeps the trailing slash, because [.] in [/(.+)\/$/] does
    not match a line terminator. *)
Theorem joinPaths_keeps_slash_after_newline :
  Axios.joinPaths ["users"; ":id"] = "/users/:id" /\
  Axios.joinPaths ["/users/"; "/:id/"] = "/users/:id" /\
  Axios.joinPaths [""] = "/" /\
  Axios.joinPaths [("a" ++ nl)%string] = ("/a" ++ nl ++ "/")%string /\
  ends_with_slash (Axios.joinPaths [("a" ++ nl)%string]) = true /\
  Axios.joinPaths [("a" ++ nl)%string] <> "/".
Proof.
  split; [reflexivity|split; [reflexivity|split; [reflexivity|split; [reflexivity|]]]].
  split; [reflexivity|]. vm_compute. discriminate.
Qed.

(** C3 (as amended): [params] is present exactly when the request's
    query field is set, [data] exactly when its data field is set; the
    value is the Whole parameter's identifier, or an object literal with
    one property per distinct field name of the partials, holding the
    identifier of the last partial that declares the name. *)
Theorem request_options_params_data : forall r u ov,
  let opts := Axios.createRequestOptions r u ov in
  match Axios.query r with
  | None => find_prop "params" opts = None
  | Some b => exists v, find_prop "params" opts = Some v /\ merged_ok b v
  end /\
  match Axios.data r with
  | None => find_prop "data" opts = None
  | Some b => exists v, find_prop "data" opts = Some v /\ merged_ok b v
  end.
Proof.
  intros [m u0 pr q d] u ov; unfold Axios.createRequestOptions; cbn.
  assert (Hov : forall k, k <> "" ->
    find_prop k (match ov with
                 | Some o => if js_falsy_str ov then [] else [Axios.SpreadAssignment (Axios.Identifier o)]
                 | None => [] end) = None).
  { intros k _. destruct ov as [o|]; [destruct (js_falsy_str (Some o))|]; reflexivity. }
  destruct q as [bq|], d as [bd|]; cbn; split;
    try (eexists; split; [reflexivity|apply AxiosFacts.createMergedObjectExpression_ok]);
    apply Hov; discriminate.
Qed.

(** C3 fails as stated: with [@Query('id') a, @Query('id') b] the merged
    object maps [id] to [b] only; the first partial's field is not mapped
    to its own parameter [a]. *)
Lemma duplicate_query_field_keeps_last :
  Axios.query r_dup_query = Some (Partials [mkPartial "id" q_a; mkPartial "id" q_b]) /\
  exists ps,
    find_prop "params" (Axios.createRequestOptions r_dup_query "/x" None)
      = Some (Axios.ObjectLiteralExpression ps) /\
    find_prop "id" ps = Some (Axios.Identifier "b") /\
    ~ In (Axios.PropertyAssignment "id" (Axios.Identifier "a")) ps.
Proof.
  split; [reflexivity|].
  eexists; split; [reflexivity|split; [reflexivity|]].
  simpl. intros [H|[]]. discriminate.
Qed.

(** C9: for the URL [/users/:uid/:pid] with two path partials, the
    template the client writer emits substitutes the identifier [uid/]
    and inserts the text [/undefined]; the OpenAPI writer's [resolveUrl]
    reads the same URL as the two placeholders [{uid}] and [{pid}]. *)
Theorem adjacent_placeholders_template :
  Axios.joinPaths [""; Axios.url r_two_params] = "/users/:uid/:pid" /\
  Axios.createUrlStringExpression r_two_params "/users/:uid/:pid"
    = Axios.TemplateExpression "/users/"
        [(Axios.Identifier "uid/", Axios.TemplateMiddle "/undefined");
         (Axios.Identifier "pid", Axios.TemplateTail "")] /\
  Axios.createUrlStringExpression r_two_params "/users/:uid/:pid"
    <> Axios.TemplateExpression "/users/"
        [(Axios.Identifier "uid", Axios.TemplateMiddle "/");
         (Axios.Identifier "pid", Axios.TemplateTail "")] /\
  OpenAPI.resolveUrl (Axios.url r_two_params) "" = "/users/{uid}/{pid}".
Proof.
  split; [reflexivity|split; [reflexivity|split; [|reflexivity]]].
  vm_compute. discriminate.
Qed.

(** C4 (as amended): the [enum] set of an enum component is exactly the
    ordered list of member values; its [type] is ["string"] exactly when
    the first member's value is a string and ["number"] otherwise (a
    numeric first member, a mixed enum starting with a number, or an enum
    without members). *)
Theorem enum_component_schema : forall e,
  let r := OpenAPI.resolveEnumComponent e in
  OpenAPI.json_get_path ["enum"] r
    = Some (OpenAPI.JArray (map OpenAPI.enum_value_json (OpenAPI.enum_members e))) /\
  (OpenAPI.json_get_path ["type"] r = Some (OpenAPI.JString "string") <->
   exists s rest, OpenAPI.enum_members e = OpenAPI.EnumString s :: rest) /\
  (OpenAPI.json_get_path ["type"] r = Some (OpenAPI.JString "number") <->
   forall s rest, OpenAPI.enum_members e <> OpenAPI.EnumString s :: rest).
Proof.
  intros [name doc members]; cbn.
  split; [reflexivity|].
  destruct members as [|[s|z] rest]; cbn.
  - split; split.
    + intros H; discriminate H.
    + intros [s' [rest' H]]; discriminate H.
    + intros _ s' rest' H; discriminate H.
    + intros _; reflexivity.
  - split; split.
    + intros _; eauto.
    + intros _; reflexivity.
    + intros H; discriminate H.
    + intros H; exfalso; now apply (H s rest).
  - split; split.
    + intros H; discriminate H.
    + intros [s' [rest' H]]; discriminate H.
    + intros _ s' rest' H; discriminate H.
    + intros _; reflexivity.
Qed.

(** C4 fails as stated: [enum Mixed { A = 1, B = 'b' }] mixes both
    kinds but resolves to type ["number"], not ["string"]. *)
Lemma mixed_enum_numeric_first :
  OpenAPI.json_get_path ["type"] (OpenAPI.resolveEnumComponent e_mixed)
    = Some (OpenAPI.JString "number").
Proof. reflexivity. Qed.



(** C6 (as amended): the responses of every operation are the
    serialised [resolveResponses] object, and that object always holds
    a ["200"] entry, with the [@returns] text as its description when
    there is one and the [application/json] media type whose [schema] is
    the serialised output of the resolver for the return type; when the
    resolver yields [undefined], only the [schema] is left out and the
    media-type object is empty. *)
Theorem responses_200_schema :
  (forall res doc,
     OpenAPI.json_clean (OpenAPI.resolveResponses res doc) =
     OpenAPI.JObject
       [("200",
          OpenAPI.JObject
            ((match doc with
              | Some d => [("description", OpenAPI.JString d)]
              | None => []
              end) ++
             [("content",
                OpenAPI.JObject
                  [("application/json",
                     OpenAPI.JObject
                       (match OpenAPI.resolveTypeSchema res with
                        | OpenAPI.JUndefined => []
                        | s => [("schema", OpenAPI.json_clean s)]
                        end))])]))]) /\
  (forall info po fuel tys r c op,
     OpenAPIWriter.operation info po fuel tys r c = Ok op ->
     OpenAPI.json_get_path ["responses"] (OpenAPI.json_clean op) =
     Some (OpenAPI.json_clean
             (OpenAPI.resolveResponses (OpenAPIWriter.oa_res r)
                (OpenAPIWriter.returns_doc (OpenAPIWriter.oa_docs r))))).
Proof.
  split.
  - intros res doc. unfold OpenAPI.resolveResponses.
    destruct doc as [d|]; destruct (OpenAPI.resolveTypeSchema res); reflexivity.
  - intros info po fuel tys r c op H. unfold OpenAPIWriter.operation in H.
    destruct (OpenAPIWriter.resolveParameters info po fuel tys r) as [params|]; [|discriminate].
    destruct (OpenAPIWriter.resolveBody info r) as [body|]; [|discriminate].
    injection H as <-.
    match goal with |- context [OpenAPI.json_clean (OpenAPI.JObject ?fs)] =>
      destruct (WriterFacts.clean_obj fs) as [l [E Hl]] end.
    rewrite E. cbn [OpenAPI.json_get_path]. rewrite Hl.
    + unfold OpenAPI.resolveResponses. reflexivity.
    + simpl. repeat constructor; simpl; intuition discriminate.
Qed.

(** C6 fails as stated: for a return type [undefined] the resolver
    yields no schema, yet the serialized responses keep a ["200"]
    entry (with an empty [application/json] media type). *)
Lemma undefined_return_keeps_200 :
  OpenAPI.resolveTypeSchema t_undefined = OpenAPI.JUndefined /\
  OpenAPI.json_get_path ["200"]
    (OpenAPI.json_clean (OpenAPI.resolveResponses t_undefined None))
  = Some (OpenAPI.JObject
            [("content", OpenAPI.JObject [("application/json", OpenAPI.JObject [])])]).
Proof. split; reflexivity. Qed.

(** C8, what the code does: a string literal gives its text and an
    array of string literals its elements joined with ["/"], at both
    levels; an object literal gives, at controller level, its [path]
    property resolved again without objects and throws ["unknown argument
    type"] at method level, as do shorthand properties, methods and
    accessors (also one named [path]) and every other node kind; an
    array with an element that is not a string literal, or a
    controller-level object without a [path] property, also aborts, but
    with a [TypeError] from the call on [undefined]. *)
Theorem literal_path_shapes :
  (forall s allow, NestjsPath.getLiteralPath (NestjsPath.NStringLiteral s) allow = Ok s) /\
  (forall ss allow,
     NestjsPath.getLiteralPath
       (NestjsPath.NArrayLiteralExpression (map NestjsPath.NStringLiteral ss)) allow
     = Ok (js_join "/" ss)) /\
  (forall props,
     NestjsPath.getLiteralPath (NestjsPath.NObjectLiteralExpression props) true
     = match find (NestjsPath.is_name "path") props with
       | Some p => NestjsPath.getLiteralPath p false
       | None => Throw NestjsPath.type_error
       end) /\
  (forall props,
     NestjsPath.getLiteralPath (NestjsPath.NObjectLiteralExpression props) false
     = Throw NestjsPath.unknown_argument_type) /\
  (forall k init allow,
     NestjsPath.getLiteralPath (NestjsPath.NPropertyAssignment k init) allow
     = NestjsPath.getLiteralPath init false) /\
  (forall k allow,
     NestjsPath.getLiteralPath (NestjsPath.NShorthandPropertyAssignment k) allow
     = Throw NestjsPath.unknown_argument_type) /\
  (forall k allow,
     NestjsPath.getLiteralPath (NestjsPath.NMethodOrAccessor k) allow
     = Throw NestjsPath.unknown_argument_type) /\
  (forall allow,
     NestjsPath.getLiteralPath NestjsPath.NOther allow
     = Throw NestjsPath.unknown_argument_type) /\
  (forall es e allow,
     In e es -> (forall s, e <> NestjsPath.NStringLiteral s) ->
     NestjsPath.getLiteralPath (NestjsPath.NArrayLiteralExpression es) allow
     = Throw NestjsPath.type_error) /\
  (forall n allow m,
     NestjsPath.getLiteralPath n allow = Throw m ->
     m = NestjsPath.unknown_argument_type \/ m = NestjsPath.type_error) /\
  (forall n rest,
     NestjsPath.getBaseUrl (n :: rest) = NestjsPath.getLiteralPath n true /\
     NestjsPath.getUrl (n :: rest) = NestjsPath.getLiteralPath n false).
Proof.
  split; [reflexivity|].
  split; [intros ss allow; cbn; now rewrite PathFacts.element_texts_strings|].
  split; [intros props; cbn; induction props as [|p props IH]; cbn; [reflexivity|];
          destruct (NestjsPath.is_name "path" p); [reflexivity|exact IH]|].
  split; [reflexivity|].
  split; [reflexivity|].
  split; [reflexivity|].
  split; [reflexivity|].
  split; [reflexivity|].
  split; [intros es e allow Hin Hns; cbn;
          now rewrite (PathFacts.element_texts_non_string es e Hin Hns)|].
  split; [exact PathFacts.getLiteralPath_errors|].
  split; reflexivity.
Qed.

Lemma literal_path_shapes_witness :
  NestjsPath.getLiteralPath
    (NestjsPath.NArrayLiteralExpression
       [NestjsPath.NStringLiteral "users"; NestjsPath.NOther]) true
  = Throw NestjsPath.type_error.
Proof.
  destruct literal_path_shapes as [_ [_ [_ [_ [_ [_ [_ [_ [H _]]]]]]]]].
  apply (H _ NestjsPath.NOther); [simpl; auto|discriminate].
Defined.

(** C8 fails as stated: [@Controller(['users', prefix])] and
    [@Controller({ host: 'x' })] are argument shapes outside the
    supported ones, yet they abort with a [TypeError] rather than with
    ["unknown argument type"]. *)
Lemma array_with_non_literal_type_error :
  NestjsPath.getBaseUrl
    [NestjsPath.NArrayLiteralExpression [NestjsPath.NStringLiteral "users"; NestjsPath.NOther]]
  = Throw NestjsPath.type_error /\
  NestjsPath.getBaseUrl
    [NestjsPath.NObjectLiteralExpression
       [NestjsPath.NPropertyAssignment "host" (NestjsPath.NStringLiteral "x")]]
  = Throw NestjsPath.type_error /\
  NestjsPath.type_error <> NestjsPath.unknown_argument_type.
Proof.
  split; [reflexivity|split; [reflexivity|]]. vm_compute. discriminate.
Qed.

End Claims.

(* ------------------------------------------------------------------ *)
(** * Further properties of the code *)

Module PathExtras.
Import Axios Spec Shapes JoinFacts JoinFacts2 TemplateFacts.

(** X1: [joinPaths] is idempotent: joining its result again, as the only
    fragment, gives that result back. *)
Theorem joinPaths_idempotent : forall args, joinPaths [joinPaths args] = joinPaths args.
Proof.
  intros [|a rest]; [reflexivity|].
  assert (Hdef : joinPaths (a :: rest) =
    trim_trailing_slash (String slash (collapse_slashes true (js_join "/" (a :: rest ++ [""])))))
    by reflexivity.
  rewrite Hdef.
  set (T := collapse_slashes true (js_join "/" (a :: rest ++ [""]))).
  assert (HndC : no_double_slash (String slash T) = true).
  { destruct (collapse_no_double (String slash (js_join "/" (a :: rest ++ [""]))) false)
      as [H _]. exact H. }
  assert (HlC : last_char (String slash T) = Some slash).
  { rewrite last_char_String.
    destruct (string_dec T EmptyString) as [HT|HT].
    - rewrite HT. reflexivity.
    - destruct (collapse_last_slash _ true (join_ends_slash rest a)) as [H|H];
        [contradiction|].
      fold T in H. rewrite H. reflexivity. }
  destruct (trim_cases (String slash T)) as [Hc|[Hlen Hc]]; rewrite Hc.
  - rewrite joinPaths_one by reflexivity.
    rewrite collapse_app_slash, HlC.
    rewrite (collapse_id _ false HndC) by discriminate.
    change (if Ascii.eqb slash slash then EmptyString else String slash EmptyString)
      with EmptyString.
    rewrite str_app_empty_r. exact Hc.
  - assert (HT : T <> EmptyString).
    { intros HT. rewrite HT in Hlen. cbn in Hlen. lia. }
    assert (Hd : drop_last (String slash T) = String slash (drop_last T))
      by (now apply drop_last_cons).
    rewrite joinPaths_one by (rewrite Hd; reflexivity).
    rewrite collapse_app_slash.
    rewrite (collapse_id _ false (no_double_drop_last _ HndC)) by discriminate.
    replace (match last_char (drop_last (String slash T)) with
             | Some c => Ascii.eqb c slash | None => false end) with false.
    2:{ destruct (last_char (drop_last (String slash T))) as [c|] eqn:E; [|reflexivity].
        symmetry. apply Ascii.eqb_neq. intros ->.
        exact (drop_last_not_slash _ HndC HlC E). }
    rewrite (drop_last_app_last _ _ HlC). exact Hc.
Qed.

(** X2: for a request with path parameters, a URL made of a literal head
    and placeholders [:name], each but possibly the last followed by a
    literal segment [/lit], becomes the template whose head is the
    literal prefix and whose spans are the identifiers of the placeholder
    names, each followed by its literal segment. *)
Theorem url_template_placeholders : forall r head mids last,
  params r <> None -> head <> EmptyString -> no_char colon head = true ->
  Forall (fun nl => wf_mid nl = true) mids -> wf_last last = true ->
  createUrlStringExpression r (placeholder_url head mids last)
  = expected_template head mids last.
Proof.
  intros r head mids last Hp Hh Hhc Hm Hl.
  unfold createUrlStringExpression. destruct (params r) as [ps|]; [|contradiction].
  unfold placeholder_url.
  rewrite <- (str_app_empty_r head) in Hhc.
  assert (Hpieces : Forall (fun p => no_char colon p = true)
                      (map mid_piece mids ++ [last_piece last])).
  { apply Forall_app. split.
    - apply Forall_map. eapply Forall_impl; [|exact Hm].
      intros [n l] H. unfold wf_mid in H; simpl in H. unfold mid_piece; simpl.
      rewrite no_char_app. simpl.
      apply andb_true_iff in H as [H _]. apply andb_true_iff in H as [H _].
      apply andb_true_iff in H as [H Hlc]. apply andb_true_iff in H as [Hnc _].
      now rewrite Hnc, Hlc.
    - constructor; [|constructor].
      destruct last as [n [l|]]; unfold wf_last in Hl; simpl in Hl;
        apply andb_true_iff in Hl as [H Hl']; apply andb_true_iff in H as [Hnc _];
        unfold last_piece; simpl; [|exact Hnc].
      rewrite no_char_app. simpl. apply andb_true_iff in Hl' as [Hl' _].
      apply andb_true_iff in Hl' as [Hlc _]. now rewrite Hnc, Hlc. }
  rewrite str_app_empty_r in Hhc.
  change (split_before_colon "" (head ++ colon_pieces (map mid_piece mids ++ [last_piece last])))
    with (split_before_colon EmptyString (head ++ colon_pieces (map mid_piece mids ++ [last_piece last]))).
  rewrite sbc_skip by exact Hhc. cbn [String.append].
  rewrite sbc_pieces by assumption.
  unfold expected_template. f_equal.
  rewrite map_app. change (map (String colon) [last_piece last]) with [String colon (last_piece last)].
  rewrite mapi_from_app. rewrite !length_app, !length_map. simpl length.
  rewrite spans_mid by (auto; lia).
  rewrite span_last; [reflexivity|exact Hl|].
  apply Nat.ltb_ge. lia.
Qed.

Lemma url_template_placeholders_witness :
  createUrlStringExpression Samples.r_two_params
    (placeholder_url "/users/" [("uid", "posts")] ("pid", None))
  = expected_template "/users/" [("uid", "posts")] ("pid", None).
Proof.
  apply url_template_placeholders;
    [discriminate|discriminate|reflexivity|apply Forall_cons; [reflexivity|constructor]|reflexivity].
Defined.

End PathExtras.

Module RequestExtras.
Import Nestjs NestjsRequests Spec Shapes NestjsFacts NestjsFacts2 RequestFacts.

(** X3: when every [@Query] (resp. [@Body], [@Param]) parameter of a
    method carries a non-empty string-literal name, the extractor returns
    one Partial per such parameter, in declaration order, each under its
    literal name; none when there is no such parameter. *)
Theorem named_bindings_in_order : forall ps,
  (forallb (fun p => negb (unnamed_binding "Query" p)) ps = true ->
   exists l, getQuery ps = match l with [] => None | _ => Some (Partials l) end /\
     map parameter l = filter (has_decorator "Query") ps /\
     Forall (fun pp => option_map literal_property (getDecorator "Query" (parameter pp))
                       = Some (Some (property pp))) l) /\
  (forallb (fun p => negb (unnamed_binding "Body" p)) ps = true ->
   exists l, getData ps = match l with [] => None | _ => Some (Partials l) end /\
     map parameter l = filter (has_decorator "Body") ps /\
     Forall (fun pp => option_map literal_property (getDecorator "Body" (parameter pp))
                       = Some (Some (property pp))) l) /\
  (forallb (fun p => negb (unnamed_binding "Param" p)) ps = true ->
   exists l, getParams ps = Ok (match l with [] => None | _ => Some l end) /\
     map parameter l = filter (has_decorator "Param") ps /\
     Forall (fun pp => option_map literal_property (getDecorator "Param" (parameter pp))
                       = Some (Some (property pp))) l).
Proof.
  intros ps. split; [|split]; intros H; rewrite <- pairs_fst;
    apply pairs_named in H.
  - unfold getQuery. destruct (pairs "Query" ps) as [|pd prs] eqn:E.
    + exists []. split; [reflexivity|split; [reflexivity|constructor]].
    + rewrite <- E in H |- *.
      destruct (collect_named _ [] H) as [l [Hc [Hm Hl]]].
      exists l. split; [|split; [exact Hm|exact (partials_decorated _ _ _ Hl)]].
      rewrite E. rewrite E in Hc. cbn [app] in Hc. rewrite Hc. destruct l; reflexivity.
  - unfold getData. destruct (pairs "Body" ps) as [|pd prs] eqn:E.
    + exists []. split; [reflexivity|split; [reflexivity|constructor]].
    + rewrite <- E in H |- *.
      destruct (collect_named _ [] H) as [l [Hc [Hm Hl]]].
      exists l. split; [|split; [exact Hm|exact (partials_decorated _ _ _ Hl)]].
      rewrite E. rewrite E in Hc. cbn [app] in Hc. rewrite Hc. destruct l; reflexivity.
  - unfold getParams. destruct (pairs "Param" ps) as [|pd prs] eqn:E.
    + exists []. split; [reflexivity|split; [reflexivity|constructor]].
    + rewrite <- E in H |- *.
      destruct (collect_params_named _ [] H) as [l [Hc [Hm Hl]]].
      exists l. split; [|split; [exact Hm|exact (partials_decorated _ _ _ Hl)]].
      rewrite E. rewrite E in Hc. cbn [app] in Hc. rewrite Hc. destruct l; reflexivity.
Qed.

Lemma named_bindings_in_order_witness :
  exists l, getQuery [Samples.q_id; Samples.b_name] =
              match l with [] => None | _ => Some (Partials l) end /\
            map parameter l = filter (has_decorator "Query") [Samples.q_id; Samples.b_name] /\
            Forall (fun pp => option_map literal_property (getDecorator "Query" (parameter pp))
                              = Some (Some (property pp))) l.
Proof.
  apply (proj1 (named_bindings_in_order [Samples.q_id; Samples.b_name])). reflexivity.
Defined.

(** X4: [getRequests] gives one request per method with a verb decorator
    (the others are skipped), and every request method is one of get,
    post, put, patch and delete. *)
Theorem getRequests_routes : forall ms rs, getRequests ms = Ok rs ->
  length rs = length (filter is_route ms) /\
  Forall (fun r => In (Axios.method r) ["get"; "post"; "put"; "patch"; "delete"]) rs.
Proof.
  induction ms as [|m ms IH]; intros rs H; simpl in H.
  - injection H as <-. split; [reflexivity|constructor].
  - unfold is_route at 1. simpl.
    destruct (getVerb m) as [v|] eqn:Ev; [|now apply IH].
    destruct (NestjsPath.getUrl (rd_args v)); [|discriminate].
    destruct (getParams (m_params m)); [|discriminate].
    destruct (getRequests ms) as [rs'|] eqn:Er; [|discriminate].
    injection H as <-. destruct (IH rs' eq_refl) as [Hl Hf].
    split; [simpl; now rewrite Hl|].
    constructor; [simpl; exact (getVerb_lower m v Ev)|exact Hf].
Qed.

Lemma getRequests_routes_witness :
  exists rs, getRequests [ExtraSamples.m_find; ExtraSamples.m_helper] = Ok rs /\
    length rs = length (filter is_route [ExtraSamples.m_find; ExtraSamples.m_helper]) /\
    Forall (fun r => In (Axios.method r) ["get"; "post"; "put"; "patch"; "delete"]) rs.
Proof.
  eexists. split; [reflexivity|]. apply getRequests_routes. reflexivity.
Defined.

(** X5: [getRequests] throws iff some method with a verb decorator has a
    path argument [getUrl] cannot read, or a [@Param] parameter without
    a non-empty string-literal name. *)
Theorem getRequests_throws_iff : forall ms,
  (exists e, getRequests ms = Throw e) <->
  exists m v, In m ms /\ getVerb m = Some v /\
    ((exists e, NestjsPath.getUrl (rd_args v) = Throw e) \/
     exists p, In p (m_params m) /\ unnamed_binding "Param" p = true).
Proof.
  induction ms as [|m ms IH]; simpl.
  - split; [intros [e H]; discriminate|intros [m [v [[] _]]]].
  - destruct (getVerb m) as [v|] eqn:Ev.
    + destruct (NestjsPath.getUrl (rd_args v)) as [u|eu] eqn:Eu.
      * destruct (getParams (m_params m)) as [ps|ep] eqn:Ep.
        -- assert (Hno : ~ exists p, In p (m_params m) /\ unnamed_binding "Param" p = true).
           { intros Hex. apply getParams_throws_unnamed in Hex as [e He].
             rewrite Ep in He. discriminate. }
           destruct (getRequests ms) as [rs|er] eqn:Er.
           ++ split; [intros [e H]; discriminate|].
              intros [m' [v' [[<-|Hin] [Hv Hc]]]].
              ** rewrite Ev in Hv. injection Hv as <-.
                 destruct Hc as [[e He]|Hc]; [rewrite Eu in He; discriminate|contradiction].
              ** destruct (proj2 IH (ex_intro _ m' (ex_intro _ v' (conj Hin (conj Hv Hc)))))
                   as [e He]. discriminate.
           ++ split; [|intros _; eauto].
              intros _. destruct (proj1 IH (ex_intro _ er eq_refl)) as [m' [v' [Hin Hv]]].
              exists m', v'. tauto.
        -- split; [intros _|intros _; eauto].
           exists m, v. split; [auto|split; [exact Ev|right]].
           apply getParams_throws_unnamed. eauto.
      * split; [intros _|intros _; eauto].
        exists m, v. split; [auto|split; [exact Ev|left; eauto]].
    + rewrite IH. split.
      * intros [m' [v' [Hin Hv]]]. exists m', v'. tauto.
      * intros [m' [v' [[<-|Hin] [Hv Hc]]]]; [congruence|].
        exists m', v'. tauto.
Qed.

(** X6: [getControllers] yields one controller per [@Controller] class, in
    file and class order, named after its file's base name up to the
    first dot: the name has no dot and is a prefix of the file name that
    is the whole name or is followed by a dot. *)
Theorem controller_names : forall files cs, getControllers files = Ok cs ->
  map ctl_name cs =
    flat_map (fun f => map (fun _ => before_dot (fst f)) (filter is_controller (snd f))) files /\
  Forall (fun c => no_char dot (ctl_name c) = true /\
                   exists f rest, In f files /\ fst f = (ctl_name c ++ rest)%string /\
                     (rest = EmptyString \/ exists r, rest = String dot r)) cs.
Proof.
  induction files as [|[base cls] files IH]; intros cs H; simpl in H.
  - injection H as <-. split; [reflexivity|constructor].
  - destruct (controllers_of_file base cls) as [cs1|] eqn:E1; [|discriminate].
    destruct (getControllers files) as [cs2|] eqn:E2; [|discriminate].
    injection H as <-. destruct (IH cs2 eq_refl) as [Hn Hf].
    assert (Hn1 := controllers_of_file_names base cls cs1 E1).
    split.
    + rewrite map_app, Hn1, Hn. reflexivity.
    + apply Forall_app. split.
      * assert (Hall : Forall (fun c => ctl_name c = before_dot base) cs1).
        { apply Forall_forall. intros c Hc.
          assert (Hin : In (ctl_name c) (map (fun _ => before_dot base) (filter is_controller cls)))
            by (rewrite <- Hn1; now apply in_map).
          apply in_map_iff in Hin as [x [Hx _]]. now rewrite Hx. }
        eapply Forall_impl; [|exact Hall]. intros c Hc. rewrite Hc.
        split; [apply before_dot_no_dot|].
        destruct (before_dot_prefix base) as [rest [Hs Hr]].
        exists (base, cls), rest. simpl. auto.
      * eapply Forall_impl; [|exact Hf]. intros c [Hd [f [rest [Hin Hr]]]].
        split; [exact Hd|]. exists f, rest. simpl. auto.
Qed.

Lemma controller_names_witness :
  exists cs, getControllers [ExtraSamples.users_file] = Ok cs /\
  map ctl_name cs =
    flat_map (fun f => map (fun _ => before_dot (fst f)) (filter is_controller (snd f)))
      [ExtraSamples.users_file] /\
  Forall (fun c => no_char dot (ctl_name c) = true /\
                   exists f rest, In f [ExtraSamples.users_file] /\
                     fst f = (ctl_name c ++ rest)%string /\
                     (rest = EmptyString \/ exists r, rest = String dot r)) cs.
Proof.
  eexists. split; [reflexivity|]. apply controller_names. reflexivity.
Defined.

End RequestExtras.

Module WriterExtras.
Import Axios OpenAPI OpenAPIWriter WriterShapes Spec JoinFacts OpenAPIFacts WriterFacts.

(** X7: every path key of the OpenAPI document ([resolveUrl]) starts with
    '/' and contains no '//'. *)
Theorem resolveUrl_shape : forall url baseUrl,
  starts_with_slash (resolveUrl url baseUrl) = true /\
  no_double_slash (resolveUrl url baseUrl) = true.
Proof.
  intros u b. rewrite starts_head. apply resolveUrl_shape_aux.
Qed.

(** X8: for a base path and a URL without braces, [resolveUrl] only turns
    placeholders [:name] into [{name}] in the joined path: reading each
    '{' back as ':' and dropping each '}' gives [joinPaths [baseUrl; url]]. *)
Theorem resolveUrl_unbrace : forall url baseUrl,
  forallb (fun s => Shapes.no_char "{"%char s && Shapes.no_char "}"%char s) [baseUrl; url] = true ->
  unbrace (resolveUrl url baseUrl) = joinPaths [baseUrl; url].
Proof.
  intros u b H. simpl in H.
  apply andb_prop in H as [H1 H]. apply andb_prop in H1 as [B1 B2].
  apply andb_prop in H as [H _]. apply andb_prop in H as [U1 U2].
  unfold resolveUrl. apply unbrace_braces.
  - apply no_char_joinPaths; [reflexivity|]. simpl. now rewrite B1, U1.
  - apply no_char_joinPaths; [reflexivity|]. simpl. now rewrite B2, U2.
Qed.

Lemma resolveUrl_unbrace_witness :
  unbrace (resolveUrl "/:uid" "users") = joinPaths ["users"; "/:uid"].
Proof. apply resolveUrl_unbrace. reflexivity. Defined.

(** X9: the component loop of [write] throws, and then a TypeError,
    exactly at a declaration whose schema resolution throws.  When it
    succeeds, every declaration's schema resolved, and the schema stored
    and the type registered under a name are those of the last enum,
    interface or class declaration of that name; type aliases register
    nothing, [__proto__] never becomes a schema key, and schema keys are
    unique. *)
Theorem components_last_wins : forall decls n,
  match addComponents decls (mkWriter [] []) with
  | Ok w =>
      (forall d, In d decls -> exists o, component_schema d = Ok o) /\
      reg_get n (types w) = last_component n decls /\
      obj_get n (schemas w) =
        (if String.eqb n "__proto__" then None
         else match last_component n decls with Some d => component_value d | None => None end) /\
      NoDup (map fst (schemas w)) /\
      existsb (String.eqb "__proto__") (map fst (schemas w)) = false
  | Throw e =>
      e = type_error /\ exists d, In d decls /\ component_schema d = Throw e
  end.
Proof.
  intros decls n.
  destruct (addComponents decls (mkWriter [] [])) as [w|e] eqn:Ew.
  - destruct (addComponents_ok decls (mkWriter [] []) w Ew) as [Hall Hget].
    destruct (Hget n) as [A B].
    destruct (addComponents_keys decls (mkWriter [] []) w Ew) as [C D];
      [constructor|reflexivity|].
    split; [exact Hall|].
    split; [rewrite A; destruct (last_component n decls); reflexivity|].
    split; [rewrite B; destruct (String.eqb n "__proto__"); reflexivity|].
    split; assumption.
  - destruct (addComponents_throw decls (mkWriter [] []) e Ew) as [d [Hin Hd]].
    split; [exact (component_schema_error d e Hd)|].
    exists d. split; assumption.
Qed.

(** X10: a Whole [@Query] parameter whose annotation is a reference to a
    name that no enum, interface or class declaration carries (a type
    alias, for instance) makes [resolveParameters] throw a TypeError. *)
Theorem whole_query_unregistered : forall info po fuel decls w r p n args,
  addComponents decls (mkWriter [] []) = Ok w ->
  query (oa_req r) = Some (Nestjs.Whole p) ->
  pi_type (info p) = Some (TypeReference (Identifier n) args) ->
  n <> ""%string ->
  last_component n decls = None ->
  resolveParameters info po fuel (types w) r = Throw type_error.
Proof.
  intros info po fuel decls w r p n args Hw Hq Ht Hn Hl.
  destruct (addComponents_ok decls (mkWriter [] []) w Hw) as [_ Hget].
  destruct (Hget n) as [A _]. rewrite Hl in A.
  remember (types w) as T eqn:HT. clear HT.
  unfold resolveParameters. rewrite Hq.
  destruct (match params (oa_req r) with
            | Some l => createParamters info po fuel T "path" (oa_docs r) (Nestjs.Partials l)
            | None => Ok []
            end) as [ps|e] eqn:Ep.
  - unfold createParamters. rewrite Ht.
    destruct (String.eqb n "") eqn:En; [apply String.eqb_eq in En; contradiction|].
    rewrite A. reflexivity.
  - destruct (params (oa_req r)); [|discriminate].
    f_equal. eapply partial_parameters_error; exact Ep.
Qed.

Lemma whole_query_unregistered_witness :
  addComponents [TTypeAlias "Filter"] (mkWriter [] []) = Ok (mkWriter [] []) /\
  resolveParameters ExtraSamples.info_filter ExtraSamples.no_optional 5
    (types (mkWriter [] [])) ExtraSamples.oa_filtered
  = Throw type_error.
Proof.
  split; [reflexivity|].
  apply (whole_query_unregistered _ _ _ [TTypeAlias "Filter"] (mkWriter [] []) _
           Samples.q_opts "Filter" []);
    [reflexivity|reflexivity|reflexivity|discriminate|reflexivity].
Defined.

(** X11: without a Whole query, [resolveParameters] throws, and then a
    TypeError, iff some path or query Partial parameter has no type
    annotation or one holding a qualified type name; otherwise it gives
    [undefined] when there is no Partial, and else one parameter object
    per Partial, path ones first, each with the Partial's field name,
    its location and [required] set when the parameter is not optional. *)
Theorem resolveParameters_partials : forall info po fuel tys r,
  (forall p, query (oa_req r) <> Some (Nestjs.Whole p)) ->
  let pl := match params (oa_req r) with Some l => l | None => [] end in
  let ql := match query (oa_req r) with Some (Nestjs.Partials l) => l | _ => [] end in
  ((exists e, resolveParameters info po fuel tys r = Throw e) <->
   exists pp, In pp (pl ++ ql) /\ annotation_ok (pi_type (info (Nestjs.parameter pp))) = false) /\
  (forall e, resolveParameters info po fuel tys r = Throw e -> e = type_error) /\
  (forall v, resolveParameters info po fuel tys r = Ok v ->
     match pl ++ ql with
     | [] => v = JUndefined
     | _ => exists objs, v = JArray objs /\
              map param_summary objs =
              map (expected_summary info "path") pl ++ map (expected_summary info "query") ql
     end).
Proof.
  intros info po fuel tys r Hw pl ql.
  assert (EP : match params (oa_req r) with
               | Some l => createParamters info po fuel tys "path" (oa_docs r) (Nestjs.Partials l)
               | None => Ok []
               end = partial_parameters info "path" (oa_docs r) pl)
    by (unfold pl; destruct (params (oa_req r)); reflexivity).
  assert (EQ : match query (oa_req r) with
               | Some b => createParamters info po fuel tys "query" (oa_docs r) b
               | None => Ok []
               end = partial_parameters info "query" (oa_docs r) ql).
  { unfold ql. destruct (query (oa_req r)) as [[p|l]|]; [|reflexivity|reflexivity].
    exfalso. exact (Hw p eq_refl). }
  unfold resolveParameters. rewrite EP, EQ.
  pose proof (partial_parameters_throws info "path" (oa_docs r) pl) as TP.
  pose proof (partial_parameters_throws info "query" (oa_docs r) ql) as TQ.
  destruct (partial_parameters info "path" (oa_docs r) pl) as [ps|e] eqn:E1.
  - destruct (partial_parameters info "query" (oa_docs r) ql) as [qs|e] eqn:E2.
    + split; [|split].
      * split.
        -- intros [e H]. destruct (ps ++ qs); discriminate.
        -- intros [pp [Hin Hn]]. apply in_app_or in Hin as [Hin|Hin].
           ++ destruct (proj2 TP (ex_intro _ pp (conj Hin Hn))) as [e He]. discriminate.
           ++ destruct (proj2 TQ (ex_intro _ pp (conj Hin Hn))) as [e He]. discriminate.
      * intros e H. destruct (ps ++ qs); discriminate.
      * intros v H.
        pose proof (partial_parameters_ok _ _ _ _ _ E1) as S1.
        pose proof (partial_parameters_ok _ _ _ _ _ E2) as S2.
        assert (S : map param_summary (ps ++ qs) =
                    map (expected_summary info "path") pl ++ map (expected_summary info "query") ql)
          by (rewrite map_app; congruence).
        destruct (ps ++ qs) as [|j rest] eqn:Epq.
        -- injection H as <-.
           symmetry in S. apply app_eq_nil in S as [S3 S4].
           apply map_eq_nil in S3, S4. rewrite S3, S4. reflexivity.
        -- injection H as <-.
           destruct (pl ++ ql) as [|x y] eqn:Epl.
           ++ apply app_eq_nil in Epl as [-> ->]. discriminate S.
           ++ exists (j :: rest). split; [reflexivity|exact S].
    + split; [|split; [|intros v H; discriminate]].
      * split; [|eauto]. intros _.
        destruct (proj1 TQ (ex_intro _ e eq_refl)) as [pp [Hin Hn]].
        exists pp. split; [apply in_or_app; right; exact Hin|exact Hn].
      * intros e' H. injection H as <-. eapply partial_parameters_error; exact E2.
  - split; [|split; [|intros v H; discriminate]].
    + split; [|eauto]. intros _.
      destruct (proj1 TP (ex_intro _ e eq_refl)) as [pp [Hin Hn]].
      exists pp. split; [apply in_or_app; left; exact Hin|exact Hn].
    + intros e' H. injection H as <-. eapply partial_parameters_error; exact E1.
Qed.

Lemma resolveParameters_partials_witness :
  exists objs,
    JArray [parameter_object "uid" "path" true None (JObject [("type", JString "string")])]
    = JArray objs /\
    map param_summary objs =
      [expected_summary ExtraSamples.info_string "path" (Nestjs.mkPartial "uid" Samples.p_uid)].
Proof.
  assert (Hw : forall p, query (oa_req ExtraSamples.oa_find) <> Some (Nestjs.Whole p))
    by (intros p H; discriminate H).
  exact (proj2 (proj2 (resolveParameters_partials ExtraSamples.info_string
                         ExtraSamples.no_optional 5 [] ExtraSamples.oa_find Hw)) _ eq_refl).
Defined.

(** X12: a serialised operation has a [requestBody] iff the request's body
    binding is a Whole parameter; a Partial body gives none. *)
Theorem operation_requestBody : forall info po fuel tys r c op,
  operation info po fuel tys r c = Ok op ->
  (json_get_path ["requestBody"] (json_clean op) <> None <->
   exists p, data (oa_req r) = Some (Nestjs.Whole p)).
Proof.
  intros info po fuel tys r c op H. unfold operation in H.
  destruct (resolveParameters info po fuel tys r) as [params|]; [|discriminate].
  destruct (resolveBody info r) as [body|] eqn:Eb; [|discriminate].
  injection H as <-.
  match goal with |- context [json_clean (JObject ?fs)] =>
    destruct (clean_obj fs) as [l [E Hl]] end.
  rewrite E. cbn [json_get_path]. rewrite Hl.
  2: { simpl. repeat constructor; simpl; intuition discriminate. }
  simpl obj_get.
  unfold resolveBody in Eb.
  destruct (data (oa_req r)) as [[p|pl]|].
  - destruct (node_schema _ _); [|discriminate]. injection Eb as <-.
    split; [eauto|discriminate].
  - injection Eb as <-. split; [intros H; contradiction|intros [p H]; discriminate].
  - injection Eb as <-. split; [intros H; contradiction|intros [p H]; discriminate].
Qed.

Lemma operation_requestBody_witness :
  exists op, operation ExtraSamples.info_string ExtraSamples.no_optional 5 []
               ExtraSamples.oa_create ExtraSamples.users_controller = Ok op /\
             json_get_path ["requestBody"] (json_clean op) <> None.
Proof.
  eexists. split; [reflexivity|].
  apply (proj2 (operation_requestBody ExtraSamples.info_string ExtraSamples.no_optional 5 []
                  ExtraSamples.oa_create ExtraSamples.users_controller _ eq_refl)).
  exists Samples.b_dto. reflexivity.
Defined.

(** X13: when a class or interface has a single [extends] clause naming a
    class or interface S, [resolvePropertiesRecursively] gives its own
    properties, those of S, and then twice every property S inherits:
    properties inherited from beyond the direct parent are repeated. *)
Theorem props_duplicated : forall fuel tys d n s ps,
  is_class_or_interface d = true ->
  heritage_idents d = [Some n] ->
  n <> ""%string ->
  reg_get n tys = Some s ->
  is_class_or_interface s = true ->
  resolvePropertiesRecursively fuel tys d = Some ps ->
  exists X, resolvePropertiesRecursively fuel tys s = Some (own_properties s ++ X) /\
            ps = own_properties d ++ own_properties s ++ X ++ X.
Proof.
  intros fuel tys d n s ps Hd Hh Hn Hr Hs H.
  unfold resolvePropertiesRecursively in H.
  destruct (yielded_properties fuel tys d) as [ps0 [|]] eqn:Y; [|discriminate].
  injection H as <-.
  destruct fuel as [|f]; [discriminate|].
  rewrite props_S, Hd in Y.
  destruct f as [|g]; [cbn in Y; discriminate|].
  change (resolveProtoChain (S g) tys d)
    with (chain_loop (resolveProtoChain g tys) tys (heritage_idents d)) in Y.
  rewrite Hh in Y. cbn [chain_loop] in Y.
  destruct (String.eqb n "") eqn:En; [apply String.eqb_eq in En; contradiction|].
  rewrite Hr, Hs in Y.
  destruct (resolveProtoChain g tys s) as [c [|]] eqn:Ec.
  2: { destruct (inherited_loop (yielded_properties (S g) tys) (s :: c)) as [inh b].
       rewrite andb_false_r in Y. discriminate. }
  rewrite app_nil_r in Y. cbn [inherited_loop] in Y.
  rewrite (props_S g tys s), Hs, Ec in Y.
  destruct (inherited_loop (yielded_properties g tys) c) as [X [|]] eqn:EX.
  2: { cbv beta iota zeta in Y. discriminate. }
  rewrite (inherited_loop_mono _ _ _ _ (proj2 (fuel_mono g tys)) EX) in Y.
  cbv beta iota zeta in Y. injection Y as <-.
  exists X. split.
  - apply resolveProps_mono. unfold resolvePropertiesRecursively.
    rewrite props_S, Hs, Ec, EX. reflexivity.
  - now rewrite <- !app_assoc.
Qed.

Lemma props_duplicated_witness :
  exists ps, resolvePropertiesRecursively 5 WriterSamples.sample_types WriterSamples.class_A
             = Some ps /\
  exists X, resolvePropertiesRecursively 5 WriterSamples.sample_types WriterSamples.class_B
            = Some (own_properties WriterSamples.class_B ++ X) /\
          ps = own_properties WriterSamples.class_A ++ own_properties WriterSamples.class_B
               ++ X ++ X.
Proof.
  eexists. split; [reflexivity|].
  eapply props_duplicated;
    [reflexivity|reflexivity|discriminate|reflexivity|reflexivity|reflexivity].
Defined.

(** X14: in the serialised schema of a union type, every member that is
    [undefined] or [null] becomes a [null] entry of [anyOf]. *)
Theorem union_nullish_null : forall ms text,
  json_clean (resolveTypeSchema (union_ty ms text)) =
  JObject [("anyOf", JArray (map (fun m => if ty_nullish m then JNull
                                          else json_clean (resolveTypeSchema m)) ms))].
Proof.
  intros ms text.
  change (resolveTypeSchema (union_ty ms text))
    with (JObject [("anyOf", JArray (map resolveTypeSchema ms))]).
  simpl. rewrite map_map. do 4 f_equal.
  apply map_ext. intros m. destruct (ty_nullish m) eqn:E.
  - destruct m. simpl in E. simpl. rewrite E. reflexivity.
  - destruct (resolve_defined m E) as [fs ->]. reflexivity.
Qed.

(** X15: in the document [write] builds, [paths[u][m]] exists, for [m]
    other than [__proto__], iff some controller has a request whose
    resolved URL is [u] and whose lower-cased method is [m]. *)
Theorem write_paths : forall info po fuel info_doc decls cs doc,
  write info po fuel info_doc decls cs = Ok doc ->
  forall u m, m <> "__proto__"%string ->
  ((exists op, json_get_path ["paths"; u; m] doc = Some op) <->
   exists c r, In c cs /\ In r (oc_requests c) /\
     u = resolveUrl (url (oa_req r)) (oc_baseUrl c) /\
     m = NestjsRequests.to_lower (method (oa_req r))).
Proof.
  intros info po fuel info_doc decls cs doc H u m Hm.
  unfold write in H.
  destruct (addComponents decls (mkWriter [] [])) as [w|]; [|discriminate].
  destruct (add_controllers info po fuel (types w) cs [] []) as [[paths tags]|] eqn:E;
    [|discriminate].
  injection H as <-.
  change (json_get_path ["paths"; u; m] _) with (json_get_path [u; m] (JObject paths)).
  rewrite get_path_lookup.
  apply String.eqb_neq in Hm.
  pose proof (add_controllers_paths _ _ _ _ _ _ _ _ _ E (Forall_nil _) u m Hm) as L.
  split.
  - intros [op H]. destruct (proj1 L) as [H0|H0]; [rewrite H; discriminate| |exact H0].
    contradiction H0; reflexivity.
  - intros H. destruct (path_lookup paths u m) as [op|] eqn:Ep; [eauto|].
    exfalso. exact (proj2 L (or_intror H) eq_refl).
Qed.

Lemma write_paths_witness :
  exists doc, write ExtraSamples.info_string ExtraSamples.no_optional 5 JNull []
                [ExtraSamples.users_controller] = Ok doc /\
  ((exists op, json_get_path ["paths"; "/users/{uid}"; "get"] doc = Some op) <->
   exists c r, In c [ExtraSamples.users_controller] /\ In r (oc_requests c) /\
     "/users/{uid}" = resolveUrl (url (oa_req r)) (oc_baseUrl c) /\
     "get" = NestjsRequests.to_lower (method (oa_req r))).
Proof.
  eexists. split; [reflexivity|].
  apply (write_paths ExtraSamples.info_string ExtraSamples.no_optional 5 JNull []
                     [ExtraSamples.users_controller] _ eq_refl).
  discriminate.
Defined.

(** X16: [resolveNodeSchema] throws, and then a TypeError, exactly on an
    annotation holding a qualified type name; a literal annotation and
    a reference with type arguments give [{}], as does a type parameter
    in scope; [Date] gives a date-time string and another identifier a
    reference to its component. *)
Theorem node_schema_shapes :
  (forall scope n,
     (exists e, resolveNodeSchema scope n = Throw e) <-> has_qualified_ref n = true) /\
  (forall scope n e, resolveNodeSchema scope n = Throw e -> e = type_error) /\
  (forall scope, resolveNodeSchema scope LiteralType = Ok (JObject [])) /\
  (forall scope name a args,
     resolveNodeSchema scope (TypeReference (Identifier name) (a :: args)) = Ok (JObject [])) /\
  (forall scope name, In name scope ->
     resolveNodeSchema scope (TypeReference (Identifier name) []) = Ok (JObject [])) /\
  (forall scope, ~ In "Date"%string scope ->
     resolveNodeSchema scope (TypeReference (Identifier "Date") []) =
     Ok (JObject [("type", JString "string"); ("format", JString "date-time")])) /\
  (forall scope name, ~ In name scope -> name <> "Date"%string ->
     resolveNodeSchema scope (TypeReference (Identifier name) []) =
     Ok (JObject [("$ref", JString ("#/components/schemas/" ++ name))])).
Proof.
  assert (Hin : forall scope name,
             existsb (String.eqb name) scope = true <-> In name scope).
  { intros scope name. rewrite existsb_exists. split.
    - intros [x [Hx Ex]]. apply String.eqb_eq in Ex. subst. exact Hx.
    - intros H. exists name. split; [exact H|apply String.eqb_refl]. }
  split; [|split; [|split; [|split; [|split; [|split]]]]].
  - intros scope n. pose proof (resolveNodeSchema_result scope n) as R.
    destruct (resolveNodeSchema scope n) as [j|e].
    + rewrite R. split; [intros [e H]; discriminate|discriminate].
    + split; [intros _; exact (proj2 R)|eauto].
  - intros scope n e H. pose proof (resolveNodeSchema_result scope n) as R.
    rewrite H in R. exact (proj1 R).
  - reflexivity.
  - reflexivity.
  - intros scope name H. cbn [resolveNodeSchema]. apply Hin in H. rewrite H. reflexivity.
  - intros scope H. cbn [resolveNodeSchema].
    destruct (existsb (String.eqb "Date") scope) eqn:E; [apply Hin in E; contradiction|].
    reflexivity.
  - intros scope name H1 H2. cbn [resolveNodeSchema].
    destruct (existsb (String.eqb name) scope) eqn:E; [apply Hin in E; contradiction|].
    unfold resolveRefType. apply String.eqb_neq in H2. rewrite H2. reflexivity.
Qed.

Lemma node_schema_shapes_witness :
  In "T"%string ["T"%string] /\
  resolveNodeSchema ["T"%string] (TypeReference (Identifier "T") []) = Ok (JObject []).
Proof.
  split; [left; reflexivity|].
  apply (proj1 (proj2 (proj2 (proj2 (proj2 node_schema_shapes)))) ["T"%string] "T").
  left; reflexivity.
Defined.



End WriterExtras.
